(** * Ecom-sales-analysis: the loader, the schema and the query catalog

    A shallow embedding of [modularcode.py] (the SQLite script: [create_tables],
    [load_csv_to_table], [basic_queries], [intermediate_queries],
    [advanced_queries], [main]) and of [process_csv] (the MySQL loader).

    The Python code is a thin client: what it computes is what the SQL text
    means.  The SQL statements are therefore embedded clause by clause with
    relational combinators whose meaning is SQLite's:

    - a value is NULL, an INTEGER, a REAL or a TEXT; comparisons are
      three-valued, NULL propagates through arithmetic, a division by zero is
      NULL, a division of two integers truncates;
    - an INTEGER is a 64-bit signed integer: a subtraction, a product or a
      quotient of integers that leaves the range is a REAL, a SUM of integers
      that leaves it fails with "integer overflow", and [to_sql] refuses to
      write an integer that does not fit;
    - REAL values are exact rationals: the rounding of doubles is outside the
      model;
    - values are compared by storage class (NULL, then numbers, then text);
      the coercion SQLite applies between a numeric column and a text column
      is outside the model;
    - where SQL leaves an order open (GROUP BY, DISTINCT, joins, ties of a
      sort) the rows come in order of first occurrence;
    - the date functions and the numeric reading of text are the engine's:
      they are fields of [engine] and every statement holds for every
      engine. *)

From Stdlib Require Import ZArith QArith Qfield String Ascii List Lia.
From stdpp Require Import gmap strings.
Import ListNotations.

Local Open Scope string_scope.
Local Open Scope nat_scope.

(** ** Values *)

Inductive number :=
  | NInt (z : Z)
  | NReal (q : Q).

Inductive value :=
  | VNull
  | VInt (z : Z)
  | VReal (q : Q)
  | VText (s : string).

(** What the database engine brings and the scripts only call. *)
Record engine := {
  (** [strftime(format, timestring)] *)
  strftime : value -> value -> value;
  (** [date(timestring, modifier)] *)
  date : value -> value -> value;
  (** the number a text stands for as an operand of [-], [*], [/] *)
  text_in_arithmetic : string -> number;
  (** the number a text stands for under SUM and AVG *)
  text_in_aggregate : string -> number
}.

Definition number_Q (n : number) : Q :=
  match n with NInt z => inject_Z z | NReal q => q end.

Definition is_int (n : number) : bool :=
  match n with NInt _ => true | NReal _ => false end.

(** The rational a value denotes when it is added up outside SQL: NULL and
    text count for nothing. *)
Definition value_Q (v : value) : Q :=
  match v with VInt z => inject_Z z | VReal q => q | _ => 0%Q end.

Definition qsum (l : list Q) : Q := fold_right Qplus 0%Q l.
Definition zsum (l : list Z) : Z := fold_right Z.add 0%Z l.

(** *** The range of an INTEGER *)

Definition min_int64 : Z := (-9223372036854775808)%Z.
Definition max_int64 : Z := 9223372036854775807%Z.

Definition in_int64 (z : Z) : bool := (min_int64 <=? z)%Z && (z <=? max_int64)%Z.

(** The result of an integer operation: the integer when it fits, and
    otherwise the REAL that SQLite falls back to. *)
Definition of_integer (z : Z) : value :=
  if in_int64 z then VInt z else VReal (inject_Z z).

(** ** Exceptions *)

Inductive error :=
  (** [pd.read_csv]: no file at the path *)
  | FileNotFound (path : string)
  (** [pd.read_csv]: a file without any column *)
  | EmptyDataError (path : string)
  (** [pd.read_csv]: a file the parser gives up on *)
  | ParserError (path : string)
  (** [CREATE TABLE]: two columns of the same name *)
  | DuplicateColumn (table_name : string)
  (** [to_sql]: an integer too large for an INTEGER *)
  | OverflowError (table_name : string)
  | NoSuchTable (table_name : string)
  (** the table has not the columns [create_tables] declares: the queries
      are modelled on that schema only *)
  | SchemaMismatch (table_name : string)
  (** more rows than a table can number *)
  | TooManyRows (table_name : string)
  (** a statement the SQL parser refuses *)
  | SyntaxError
  (** a SUM of integers beyond the 64-bit range *)
  | IntegerOverflow.

Inductive outcome (A : Type) :=
  | Returned (a : A)
  | Raised (e : error).
Arguments Returned {A} a.
Arguments Raised {A} e.

#[export] Instance outcome_ret : MRet outcome := fun A a => Returned a.
#[export] Instance outcome_bind : MBind outcome := fun A B f m =>
  match m with
  | Returned a => f a
  | Raised e => Raised e
  end.
#[export] Instance outcome_fmap : FMap outcome := fun A B f m =>
  match m with
  | Returned a => Returned (f a)
  | Raised e => Raised e
  end.

(** Every element in turn, up to the first that raises. *)
Fixpoint traverse {A B} (f : A -> outcome B) (l : list A) : outcome (list B) :=
  match l with
  | [] => Returned []
  | a :: l' =>
      match f a with
      | Raised e => Raised e
      | Returned b =>
          match traverse f l' with
          | Raised e => Raised e
          | Returned bs => Returned (b :: bs)
          end
      end
  end.

(** *** Ordering and equality of values *)

(** The order of ORDER BY, MIN and of the comparison operators on non-NULL
    operands: NULL first, then numbers by value, then text byte by byte. *)
Definition value_compare (a b : value) : comparison :=
  match a, b with
  | VNull, VNull => Eq
  | VNull, _ => Lt
  | _, VNull => Gt
  | VText s, VText t => String.compare s t
  | VText _, _ => Gt
  | _, VText _ => Lt
  | _, _ => Qcompare (value_Q a) (value_Q b)
  end.

(** Equality as GROUP BY, DISTINCT and PARTITION BY see it: NULLs are equal. *)
Definition value_eqb (a b : value) : bool :=
  match value_compare a b with Eq => true | _ => false end.

Definition value_leb (a b : value) : bool :=
  match value_compare a b with Gt => false | _ => true end.

Fixpoint keys_eqb (k1 k2 : list value) : bool :=
  match k1, k2 with
  | [], [] => true
  | a :: k1', b :: k2' => value_eqb a b && keys_eqb k1' k2'
  | _, _ => false
  end.

(** Three-valued comparison: NULL (here [None]) when an operand is NULL. *)
Definition sql_cmp (test : comparison -> bool) (a b : value) : option bool :=
  match a, b with
  | VNull, _ | _, VNull => None
  | _, _ => Some (test (value_compare a b))
  end.

Definition sql_eq : value -> value -> option bool :=
  sql_cmp (fun c => match c with Eq => true | _ => false end).
Definition sql_gt : value -> value -> option bool :=
  sql_cmp (fun c => match c with Gt => true | _ => false end).
Definition sql_le : value -> value -> option bool :=
  sql_cmp (fun c => match c with Gt => false | _ => true end).

Definition sql_and (p q : option bool) : option bool :=
  match p, q with
  | Some false, _ | _, Some false => Some false
  | Some true, Some true => Some true
  | _, _ => None
  end.

(** WHERE, ON and CASE WHEN keep a row only when the condition is true. *)
Definition holds (c : option bool) : bool :=
  match c with Some true => true | _ => false end.

(** *** Arithmetic *)

(** The accumulator of SUM: nothing yet, integers only so far, a REAL seen,
    or an integer addition that left the 64-bit range. *)
Inductive summed :=
  | NoValue
  | IntSum (z : Z)
  | RealSum (q : Q)
  | Overflowed.

(** Integers are added as integers while no REAL has been seen and the sum
    fits; once a REAL has been seen everything is added as REAL. *)
Definition sum_step (acc : summed) (n : number) : summed :=
  match acc, n with
  | NoValue, NInt z => if in_int64 z then IntSum z else Overflowed
  | NoValue, NReal q => RealSum q
  | IntSum a, NInt z => if in_int64 (a + z) then IntSum (a + z) else Overflowed
  | IntSum a, NReal q => RealSum (inject_Z a + q)
  | RealSum r, _ => RealSum (r + number_Q n)
  | Overflowed, _ => Overflowed
  end.

Section Arithmetic.
Variable E : engine.

Definition operand (v : value) : option number :=
  match v with
  | VNull => None
  | VInt z => Some (NInt z)
  | VReal q => Some (NReal q)
  | VText s => Some (text_in_arithmetic E s)
  end.

Definition arith (fz : Z -> Z -> Z) (fq : Q -> Q -> Q) (a b : value) : value :=
  match operand a, operand b with
  | Some (NInt x), Some (NInt y) => of_integer (fz x y)
  | Some x, Some y => VReal (fq (number_Q x) (number_Q y))
  | _, _ => VNull
  end.

Definition sql_sub : value -> value -> value := arith Z.sub Qminus.
Definition sql_mul : value -> value -> value := arith Z.mul Qmult.

Definition sql_div (a b : value) : value :=
  match operand a, operand b with
  | Some x, Some y =>
      if Qeq_bool (number_Q y) 0 then VNull
      else match x, y with
           | NInt p, NInt q => of_integer (Z.quot p q)
           | _, _ => VReal (number_Q x / number_Q y)
           end
  | _, _ => VNull
  end.

(** *** Aggregates *)

Definition aggregand (v : value) : option number :=
  match v with
  | VNull => None
  | VInt z => Some (NInt z)
  | VReal q => Some (NReal q)
  | VText s => Some (text_in_aggregate E s)
  end.

Fixpoint aggregands (vs : list value) : list number :=
  match vs with
  | [] => []
  | v :: vs' =>
      match aggregand v with
      | Some n => n :: aggregands vs'
      | None => aggregands vs'
      end
  end.

(** SUM skips NULLs, is NULL over no value, an INTEGER while every value
    is one and a REAL otherwise; the statement fails with "integer
    overflow" when the integers added so far leave the 64-bit range. *)
Definition sql_sum (vs : list value) : outcome value :=
  match fold_left sum_step (aggregands vs) NoValue with
  | NoValue => Returned VNull
  | IntSum z => Returned (VInt z)
  | RealSum q => Returned (VReal q)
  | Overflowed => Raised IntegerOverflow
  end.

(** AVG adds everything up as REAL: it does not overflow. *)
Definition sql_avg (vs : list value) : value :=
  match aggregands vs with
  | [] => VNull
  | ns => VReal (qsum (map number_Q ns) / inject_Z (Z.of_nat (length ns)))
  end.

(** [SELECT label, SUM(x) ... GROUP BY ...]: a row per group, with the SUM
    over the values [xs] of the group. *)
Definition sum_per_group {G B} (label : G -> B) (xs : G -> list value) (gs : list G)
  : outcome (list (B * value)) :=
  traverse (fun g => match sql_sum (xs g) with
                     | Returned total => Returned (label g, total)
                     | Raised e => Raised e
                     end) gs.
End Arithmetic.

Definition is_null (v : value) : bool :=
  match v with VNull => true | _ => false end.

Definition non_null (vs : list value) : list value :=
  List.filter (fun v => negb (is_null v)) vs.

Definition count_star {A} (l : list A) : value := VInt (Z.of_nat (length l)).

(** COUNT(x) counts the rows where x is not NULL. *)
Definition sql_count (vs : list value) : value := count_star (non_null vs).

Definition sql_min (vs : list value) : value :=
  match non_null vs with
  | [] => VNull
  | v :: vs' => fold_left (fun m x => if value_leb m x then m else x) vs' v
  end.

(** ** Relational combinators *)

(** First occurrences, up to [eqb]. *)
Fixpoint distinct_from {K} (eqb : K -> K -> bool) (seen l : list K) : list K :=
  match l with
  | [] => []
  | k :: l' =>
      if existsb (eqb k) seen then distinct_from eqb seen l'
      else k :: distinct_from eqb (k :: seen) l'
  end.

Definition distinct {K} (eqb : K -> K -> bool) (l : list K) : list K :=
  distinct_from eqb [] l.

(** COUNT(DISTINCT x) *)
Definition sql_count_distinct (vs : list value) : value :=
  count_star (distinct value_eqb (non_null vs)).

(** GROUP BY: one group per distinct key, holding the rows of that key. *)
Definition group_by {A K} (eqb : K -> K -> bool) (key : A -> K) (l : list A)
  : list (K * list A) :=
  map (fun k => (k, List.filter (fun a => eqb (key a) k) l))
      (distinct eqb (map key l)).

(** [l JOIN r ON on] *)
Definition join {A B} (l : list A) (r : list B) (on : A -> B -> option bool)
  : list (A * B) :=
  flat_map (fun a => map (pair a) (List.filter (fun b => holds (on a b)) r)) l.

(** [l LEFT JOIN r ON on]: a row of [l] without partner is kept, with NULLs
    (here [None]) on the right. *)
Definition left_join {A B} (l : list A) (r : list B) (on : A -> B -> option bool)
  : list (A * option B) :=
  flat_map (fun a =>
              match List.filter (fun b => holds (on a b)) r with
              | [] => [(a, None)]
              | bs => map (fun b => (a, Some b)) bs
              end) l.

(** ORDER BY: a stable insertion sort. *)
Fixpoint insert_sorted {A} (le : A -> A -> bool) (a : A) (l : list A) : list A :=
  match l with
  | [] => [a]
  | b :: l' => if le a b then a :: l else b :: insert_sorted le a l'
  end.

Definition sort_by {A} (le : A -> A -> bool) (l : list A) : list A :=
  fold_right (insert_sorted le) [] l.

Definition ascending {A} (f : A -> value) (a b : A) : bool := value_leb (f a) (f b).
Definition descending {A} (f : A -> value) (a b : A) : bool := value_leb (f b) (f a).

(** ROW_NUMBER() over rows already in window order. *)
Definition row_number {A} (l : list A) : list (A * value) :=
  combine l (map (fun i => VInt (Z.of_nat i)) (seq 1 (length l))).

(** LAG(x) over rows already in window order: the value of the row before,
    NULL for the first. *)
Fixpoint lag_from {A} (f : A -> value) (prev : value) (l : list A) : list (A * value) :=
  match l with
  | [] => []
  | a :: l' => (a, prev) :: lag_from f (f a) l'
  end.

Definition lag {A} (f : A -> value) (l : list A) : list (A * value) :=
  lag_from f VNull l.

(** ** The store *)

Inductive sqltype := INTEGER | REAL | TEXT.

Record column := {
  col_name : string;
  col_type : sqltype;
  col_primary_key : bool
}.

(** [FOREIGN KEY (fk_column) REFERENCES fk_table (fk_target)] *)
Record foreign_key := {
  fk_column : string;
  fk_table : string;
  fk_target : string
}.

Record table := {
  columns : list column;
  foreign_keys : list foreign_key;
  rows : list (list value)
}.

(** What [pd.read_sql] hands back and [print] shows. *)
Record relation := {
  names : list string;
  tuples : list (list value)
}.

(** ** Data frames *)

Inductive cell :=
  | NaN
  | PyNone
  | PyInt (z : Z)
  | PyFloat (q : Q)
  | PyBool (b : bool)
  | PyStr (s : string).

(** [uint64] is the dtype [read_csv] gives a column of integers of which
    one is above the signed 64-bit range. *)
Inductive dtype := int64 | uint64 | float64 | bool_ | object_.

Record DataFrame := {
  df_columns : list (string * dtype);
  df_rows : list (list cell)
}.

(** A file as [pd.read_csv] sees it: one it parses, with the frame it
    parses to, one without columns, or one the parser gives up on. *)
Inductive file :=
  | Csv (df : DataFrame)
  | NoColumns
  | Unparsable.

Inductive printed :=
  | Line (s : string)
  | Frame (r : relation).

(** The files the scripts read, the database behind the connection and the
    standard output. *)
Record world := {
  files : gmap string file;
  database : gmap string table;
  stdout : list printed
}.

(** ** Running a script: state, and exceptions that propagate *)

Definition run (A : Type) : Type := world -> outcome A * world.

#[export] Instance run_ret : MRet run := fun A a w => (Returned a, w).
#[export] Instance run_bind : MBind run := fun A B f m w =>
  match m w with
  | (Returned a, w') => f a w'
  | (Raised e, w') => (Raised e, w')
  end.

Definition raise {A} (e : error) : run A := fun w => (Raised e, w).

Definition get_database : run (gmap string table) :=
  fun w => (Returned (database w), w).

Definition set_database (d : gmap string table) : run unit :=
  fun w => (Returned tt, {| files := files w; database := d; stdout := stdout w |}).

Definition print (p : printed) : run unit :=
  fun w => (Returned tt,
            {| files := files w; database := database w; stdout := stdout w ++ [p] |}).

Fixpoint for_each {A} (l : list A) (body : A -> run unit) : run unit :=
  match l with
  | [] => mret tt
  | a :: l' => body a ;; for_each l' body
  end.

(** ** Statements *)

Definition lower_ascii (c : ascii) : ascii :=
  let n := nat_of_ascii c in
  if (65 <=? n) && (n <=? 90) then ascii_of_nat (n + 32) else c.

Fixpoint lower (s : string) : string :=
  match s with
  | EmptyString => EmptyString
  | String c s' => String (lower_ascii c) (lower s')
  end.

(** Column names are matched without regard to ASCII case. *)
Definition same_name (a b : string) : bool := String.eqb (lower a) (lower b).

Fixpoint has_duplicates (l : list string) : bool :=
  match l with
  | [] => false
  | a :: l' => existsb (same_name a) l' || has_duplicates l'
  end.

(** [CREATE TABLE name (...)]: refused when two columns have the same name. *)
Definition create_table (name : string) (cols : list column) (fks : list foreign_key)
  : run unit :=
  if has_duplicates (map col_name cols) then raise (DuplicateColumn name)
  else
    d ← get_database;
    set_database (<[name := {| columns := cols; foreign_keys := fks; rows := [] |}]> d).

(** [CREATE TABLE IF NOT EXISTS name (...)] *)
Definition create_table_if_not_exists (name : string) (cols : list column)
  (fks : list foreign_key) : run unit :=
  d ← get_database;
  match d !! name with
  | Some _ => mret tt
  | None => create_table name cols fks
  end.

(** [DROP TABLE name] *)
Definition drop_table (name : string) : run unit :=
  d ← get_database;
  set_database (delete name d).

(** What the [sqlite3] module binds to a parameter: an integer only when it
    fits a 64-bit signed INTEGER. *)
Definition storable (v : value) : bool :=
  match v with VInt z => in_int64 z | _ => true end.

(** [INSERT INTO name VALUES ...], for every row, in one transaction: when a
    value cannot be bound the insert raises and no row is written.  SQLite
    checks foreign keys only under [PRAGMA foreign_keys = ON], which the
    script never issues. *)
Definition insert_rows (name : string) (new : list (list value)) : run unit :=
  d ← get_database;
  match d !! name with
  | None => raise (NoSuchTable name)
  | Some t =>
      if forallb (forallb storable) new then
        set_database (<[name := {| columns := columns t;
                                   foreign_keys := foreign_keys t;
                                   rows := rows t ++ new |}]> d)
      else raise (OverflowError name)
  end.

Definition plain (name : string) (ty : sqltype) : column :=
  {| col_name := name; col_type := ty; col_primary_key := false |}.

Definition primary (name : string) (ty : sqltype) : column :=
  {| col_name := name; col_type := ty; col_primary_key := true |}.

Definition references (col tbl target : string) : foreign_key :=
  {| fk_column := col; fk_table := tbl; fk_target := target |}.

Definition create_tables : run unit :=
  create_table_if_not_exists "customers"
    [primary "customer_id" INTEGER; plain "name" TEXT; plain "city" TEXT;
     plain "state" TEXT] [] ;;
  create_table_if_not_exists "orders"
    [primary "order_id" INTEGER; plain "customer_id" INTEGER;
     plain "order_date" TEXT; plain "amount" REAL; plain "payment_type" TEXT]
    [references "customer_id" "customers" "customer_id"] ;;
  create_table_if_not_exists "products"
    [primary "product_id" INTEGER; plain "category" TEXT; plain "price" REAL] [] ;;
  create_table_if_not_exists "order_products"
    [plain "order_id" INTEGER; plain "product_id" INTEGER]
    [references "order_id" "orders" "order_id";
     references "product_id" "products" "product_id"] ;;
  create_table_if_not_exists "sales"
    [plain "seller_id" INTEGER; plain "amount" REAL] [].

(** ** The loaders *)

(** [pd.read_csv(file_path)]: the parsed file, or the exception of a missing,
    empty or malformed one. *)
Definition read_csv (file_path : string) : run DataFrame :=
  fun w => match files w !! file_path with
           | Some (Csv df) => (Returned df, w)
           | Some NoColumns => (Raised (EmptyDataError file_path), w)
           | Some Unparsable => (Raised (ParserError file_path), w)
           | None => (Raised (FileNotFound file_path), w)
           end.

Definition is_missing (c : cell) : bool :=
  match c with NaN | PyNone => true | _ => false end.

(** [df.where(pd.notnull(df), None)] *)
Definition where_notnull_none (df : DataFrame) : DataFrame :=
  {| df_columns := df_columns df;
     df_rows := map (map (fun c => if is_missing c then PyNone else c)) (df_rows df) |}.

(** [s.replace(old, new)] for one-character [old] and [new]. *)
Fixpoint replace (old new : ascii) (s : string) : string :=
  match s with
  | EmptyString => EmptyString
  | String c s' => String (if Ascii.eqb c old then new else c) (replace old new s')
  end.

Definition clean_column (col : string) : string :=
  replace "." "_" (replace "-" "_" (replace " " "_" col)).

(** [df.columns = [... for col in df.columns]] *)
Definition clean_columns (df : DataFrame) : DataFrame :=
  {| df_columns := map (fun c => (clean_column (fst c), snd c)) (df_columns df);
     df_rows := df_rows df |}.

(** How [to_sql] declares and writes a frame: a column type per dtype, NULL
    for a missing cell. *)
Definition sql_type (t : dtype) : sqltype :=
  match t with
  | int64 | uint64 | bool_ => INTEGER
  | float64 => REAL
  | object_ => TEXT
  end.

Definition sql_value (c : cell) : value :=
  match c with
  | NaN | PyNone => VNull
  | PyInt z => VInt z
  | PyFloat q => VReal q
  | PyBool b => VInt (if b then 1 else 0)
  | PyStr s => VText s
  end.

(** [df.to_sql(name, conn, if_exists='replace', index=False)]: an existing
    table is dropped, the table is created from the frame's columns, without
    keys, and the rows are inserted. *)
Definition to_sql (df : DataFrame) (name : string) : run unit :=
  d ← get_database;
  (match d !! name with
   | Some _ => drop_table name
   | None => mret tt
   end) ;;
  create_table name (map (fun c => plain (fst c) (sql_type (snd c))) (df_columns df)) [] ;;
  insert_rows name (map (map sql_value) (df_rows df)).

Definition load_csv_to_table (file_path table_name : string) : run unit :=
  df ← read_csv file_path;
  to_sql df table_name.

(** [conn] is here the connection of the MySQL script: the database behind
    it is modelled as the same store of tables. *)
Definition process_csv (file_path table_name : string) : run unit :=
  df ← read_csv file_path;
  let df := where_notnull_none df in
  let df := clean_columns df in
  to_sql df table_name.

(** ** The tables as the queries read them

    A query names its columns; it is modelled on a table that has exactly
    the columns [create_tables] declares (in any order), and is
    [SchemaMismatch] on another one.  SQLite numbers the rows of a table
    with 64-bit signed integers, so a table has at most 2^63 - 1 rows. *)

Fixpoint column_index (name : string) (cols : list column) : option nat :=
  match cols with
  | [] => None
  | c :: cols' =>
      if same_name name (col_name c) then Some 0
      else option_map S (column_index name cols')
  end.

Fixpoint column_indices (wanted : list string) (cols : list column) : option (list nat) :=
  match wanted with
  | [] => Some []
  | n :: wanted' =>
      match column_index n cols, column_indices wanted' cols with
      | Some i, Some ixs => Some (i :: ixs)
      | _, _ => None
      end
  end.

Definition scan (name : string) (wanted : list string) (d : gmap string table)
  : outcome (list (list value)) :=
  match d !! name with
  | None => Raised (NoSuchTable name)
  | Some t =>
      if (Z.of_nat (length (rows t)) <=? max_int64)%Z then
        if length (columns t) =? length wanted then
          match column_indices wanted (columns t) with
          | Some ixs => Returned (map (fun r => map (fun i => nth i r VNull) ixs) (rows t))
          | None => Raised (SchemaMismatch name)
          end
        else Raised (SchemaMismatch name)
      else Raised (TooManyRows name)
  end.

Definition field (i : nat) (r : list value) : value := nth i r VNull.

Module Customers.
Record row := { customer_id : value; name : value; city : value; state : value }.
Definition of_list (r : list value) : row :=
  {| customer_id := field 0 r; name := field 1 r; city := field 2 r;
     state := field 3 r |}.
End Customers.

Module Orders.
Record row := {
  order_id : value;
  customer_id : value;
  order_date : value;
  amount : value;
  payment_type : value
}.
Definition of_list (r : list value) : row :=
  {| order_id := field 0 r; customer_id := field 1 r; order_date := field 2 r;
     amount := field 3 r; payment_type := field 4 r |}.
End Orders.

Module Products.
Record row := { product_id : value; category : value; price : value }.
Definition of_list (r : list value) : row :=
  {| product_id := field 0 r; category := field 1 r; price := field 2 r |}.
End Products.

Module OrderProducts.
Record row := { order_id : value; product_id : value }.
Definition of_list (r : list value) : row :=
  {| order_id := field 0 r; product_id := field 1 r |}.
End OrderProducts.

Module Sales.
Record row := { seller_id : value; amount : value }.
Definition of_list (r : list value) : row :=
  {| seller_id := field 0 r; amount := field 1 r |}.
End Sales.

Definition customers_of (d : gmap string table) : outcome (list Customers.row) :=
  map Customers.of_list <$> scan "customers" ["customer_id"; "name"; "city"; "state"] d.

Definition orders_of (d : gmap string table) : outcome (list Orders.row) :=
  map Orders.of_list <$>
    scan "orders" ["order_id"; "customer_id"; "order_date"; "amount"; "payment_type"] d.

Definition products_of (d : gmap string table) : outcome (list Products.row) :=
  map Products.of_list <$> scan "products" ["product_id"; "category"; "price"] d.

Definition order_products_of (d : gmap string table) : outcome (list OrderProducts.row) :=
  map OrderProducts.of_list <$> scan "order_products" ["order_id"; "product_id"] d.

Definition sales_of (d : gmap string table) : outcome (list Sales.row) :=
  map Sales.of_list <$> scan "sales" ["seller_id"; "amount"] d.

(** ** The query catalog *)

Definition query : Type := gmap string table -> outcome relation.

(** The text of intermediate query 4, as the script hands it to
    [pd.read_sql]. *)
Definition correlation_sql : string := "
    WITH product_sales AS (
        SELECT p.product_id, p.price, COUNT(op.order_id) AS purchase_count
        FROM products p
        JOIN order_products op ON p.product_id = op.product_id
        GROUP BY p.product_id, p.price
    )
    SELECT
        (SELECT SUM((price - (SELECT AVG(price) FROM product_sales)) * (purchase_count - (SELECT AVG(purchase_count) FROM product_sales)))
         / (SQRT(SUM((price - (SELECT AVG(price) FROM product_sales)) * (price - (SELECT AVG(price) FROM product_sales))))
            * SQRT(SUM((purchase_count - (SELECT AVG(purchase_count) FROM product_sales)) * (purchase_count - (SELECT AVG(purchase_count) FROM product_sales))))) AS correlation
    FROM product_sales
    ".

(** The parentheses a text has opened and not closed when it ends; [None]
    when it closes one that is not open. *)
Fixpoint open_parentheses (depth : nat) (s : string) : option nat :=
  match s with
  | EmptyString => Some depth
  | String c s' =>
      if Ascii.eqb c "("%char then open_parentheses (S depth) s'
      else if Ascii.eqb c ")"%char then
        match depth with
        | 0 => None
        | S depth' => open_parentheses depth' s'
        end
      else open_parentheses depth s'
  end.

(** A statement that ends inside a parenthesis is incomplete: the parser
    refuses it. *)
Definition complete (sql : string) : bool :=
  match open_parentheses 0 sql with
  | Some 0 => true
  | _ => false
  end.

Section Queries.
Variable E : engine.

(** [strftime("%Y", order_date)], and the like: on the declared schema no
    column is called [%Y], so the double-quoted word is a string. *)
Definition year_of (o : Orders.row) : value :=
  strftime E (VText "%Y") (Orders.order_date o).
Definition month_of (o : Orders.row) : value :=
  strftime E (VText "%m") (Orders.order_date o).
Definition year_month_of (o : Orders.row) : value :=
  strftime E (VText "%Y-%m") (Orders.order_date o).

(** *** basic_queries *)

Definition unique_cities : query := fun d =>
  cs ← customers_of d;
  mret {| names := ["city"];
          tuples := map (fun c => [c]) (distinct value_eqb (map Customers.city cs)) |}.

Definition orders_2017 : query := fun d =>
  os ← orders_of d;
  mret {| names := ["order_count"];
          tuples := [[count_star
                        (List.filter (fun o => holds (sql_eq (year_of o) (VText "2017")))
                                     os)]] |}.

(** [orders o JOIN order_products op ON o.order_id = op.order_id
     JOIN products p ON op.product_id = p.product_id] *)
Definition category_join (os : list Orders.row) (ops : list OrderProducts.row)
  (ps : list Products.row) : list (Orders.row * OrderProducts.row * Products.row) :=
  join (join os ops (fun o op => sql_eq (Orders.order_id o) (OrderProducts.order_id op)))
       ps (fun j p => sql_eq (OrderProducts.product_id (snd j)) (Products.product_id p)).

(** [SELECT p.category, SUM(o.amount) ... GROUP BY p.category] *)
Definition category_totals (os : list Orders.row) (ops : list OrderProducts.row)
  (ps : list Products.row) : outcome (list (value * value)) :=
  sum_per_group E fst (fun g => map (fun j => Orders.amount (fst (fst j))) (snd g))
    (group_by value_eqb (fun j => Products.category (snd j)) (category_join os ops ps)).

Definition sales_per_category : query := fun d =>
  os ← orders_of d;
  ops ← order_products_of d;
  ps ← products_of d;
  totals ← category_totals os ops ps;
  mret {| names := ["category"; "total_sales"];
          tuples := map (fun c => [fst c; snd c]) totals |}.

Definition installment_flag (o : Orders.row) : value :=
  if holds (sql_eq (Orders.payment_type o) (VText "Installment")) then VInt 1 else VInt 0.

Definition installments_percentage : query := fun d =>
  os ← orders_of d;
  installments ← sql_sum E (map installment_flag os);
  mret {| names := ["percentage_installments"];
          tuples := [[sql_div E (sql_mul E installments (VReal 100)) (count_star os)]] |}.

Definition customers_by_state : query := fun d =>
  cs ← customers_of d;
  mret {| names := ["state"; "customer_count"];
          tuples := map (fun g => [fst g; count_star (snd g)])
                        (group_by value_eqb Customers.state cs) |}.

(** *** intermediate_queries *)

Definition orders_per_month_2018 : query := fun d =>
  os ← orders_of d;
  mret {| names := ["month"; "order_count"];
          tuples := map (fun g => [fst g; count_star (snd g)])
                        (group_by value_eqb month_of
                           (List.filter
                              (fun o => holds (sql_eq (year_of o) (VText "2018"))) os)) |}.

(** The CTE [order_counts]: a city and a product count per order. *)
Definition order_counts (os : list Orders.row) (ops : list OrderProducts.row)
  (cs : list Customers.row) : list (value * value) :=
  map (fun g => (field 1 (fst g),
                 sql_count (map (fun j => OrderProducts.product_id (snd (fst j))) (snd g))))
      (group_by keys_eqb
         (fun j => [Orders.order_id (fst (fst j)); Customers.city (snd j)])
         (join (join os ops
                     (fun o op => sql_eq (Orders.order_id o) (OrderProducts.order_id op)))
               cs (fun j c => sql_eq (Orders.customer_id (fst j))
                                     (Customers.customer_id c)))).

Definition avg_products_per_order_city : query := fun d =>
  os ← orders_of d;
  ops ← order_products_of d;
  cs ← customers_of d;
  mret {| names := ["city"; "avg_products_per_order"];
          tuples := map (fun g => [fst g; sql_avg E (map snd (snd g))])
                        (group_by value_eqb fst (order_counts os ops cs)) |}.

(** The CTE [total_revenue]: [SELECT SUM(amount) AS total FROM orders]. *)
Definition total_revenue (os : list Orders.row) : outcome value :=
  sql_sum E (map Orders.amount os).

(** The CTE [category_revenue]: the SELECT of basic query 3, its sum
    called [category_total]. *)
Definition category_revenue (os : list Orders.row) (ops : list OrderProducts.row)
  (ps : list Products.row) : outcome (list (value * value)) :=
  category_totals os ops ps.

(** [(category_total / (SELECT total FROM total_revenue)) * 100] *)
Definition percentage_of (total category_total : value) : value :=
  sql_mul E (sql_div E category_total total) (VInt 100).

(** The scalar subquery [(SELECT total FROM total_revenue)] is computed
    when the first row asks for it: over no category it is not computed,
    and its SUM cannot fail. *)
Definition percentage_revenue_per_category : query := fun d =>
  os ← orders_of d;
  ops ← order_products_of d;
  ps ← products_of d;
  categories ← category_revenue os ops ps;
  percentages ← match categories with
                | [] => mret []
                | _ :: _ =>
                    total ← total_revenue os;
                    mret (map (fun c => [fst c; percentage_of total (snd c)]) categories)
                end;
  mret {| names := ["category"; "percentage_revenue"]; tuples := percentages |}.

(** The text of this statement, [correlation_sql], opens 27 parentheses
    and closes 26: the [(SELECT] that starts the select list is still open
    where the text ends.  SQLite refuses the statement when it parses it,
    before it looks at any table, so [pd.read_sql] raises on every
    database. *)
Definition correlation : query := fun _ => Raised SyntaxError.

Definition revenue_per_seller : query := fun d =>
  ss ← sales_of d;
  totals ← sum_per_group E fst (fun g => map Sales.amount (snd g))
                         (group_by value_eqb Sales.seller_id ss);
  mret {| names := ["seller_id"; "total_revenue"];
          tuples := map (fun s => [fst s; snd s]) (sort_by (descending snd) totals) |}.

(** *** advanced_queries *)

(** The CTE [ranked_orders]: every order with its rank in the history of
    its customer. *)
Definition ranked_orders (os : list Orders.row) : list (Orders.row * value) :=
  flat_map (fun g => row_number (sort_by (ascending Orders.order_date) (snd g)))
           (group_by value_eqb Orders.customer_id os).

(** [ROWS BETWEEN 2 PRECEDING AND CURRENT ROW] around the row at [i]. *)
Definition frame_2_preceding {A} (l : list A) (i : nat) : list A :=
  skipn (i - 2) (firstn (S i) l).

Definition moving_avg : query := fun d =>
  os ← orders_of d;
  mret {| names := ["customer_id"; "order_date"; "amount"; "moving_avg"];
          tuples :=
            flat_map
              (fun g =>
                 let w := sort_by (ascending snd) (snd g) in
                 map (fun r =>
                        [Orders.customer_id (fst (fst r)); Orders.order_date (fst (fst r));
                         Orders.amount (fst (fst r));
                         sql_avg E (map (fun x => Orders.amount (fst x))
                                        (frame_2_preceding w (snd r)))])
                     (combine w (seq 0 (length w))))
              (group_by value_eqb (fun r => Orders.customer_id (fst r))
                        (ranked_orders os)) |}.

(** The CTE [monthly_sales]. *)
Definition monthly_sales (os : list Orders.row) : outcome (list (value * value)) :=
  sum_per_group E fst (fun g => map Orders.amount (snd g))
    (group_by value_eqb year_month_of os).

(** A column that is neither grouped nor aggregated: SQLite takes it from
    a row of the group, here the first. *)
Definition bare {A} (f : A -> value) (g : list A) : value :=
  match g with
  | a :: _ => f a
  | [] => VNull
  end.

Definition cumulative_sales_per_month : query := fun d =>
  os ← orders_of d;
  months ← monthly_sales os;
  totals ← sum_per_group E (fun g => bare fst (snd g)) (fun g => map snd (snd g))
                         (group_by keys_eqb
                            (fun m => [strftime E (VText "%Y") (fst m);
                                       strftime E (VText "%m") (fst m)])
                            months);
  mret {| names := ["year_month"; "cumulative_sales"];
          tuples := map (fun r => [fst r; snd r]) (sort_by (ascending fst) totals) |}.

(** The CTE [yearly_sales]. *)
Definition yearly_sales (os : list Orders.row) : outcome (list (value * value)) :=
  sum_per_group E fst (fun g => map Orders.amount (snd g))
    (group_by value_eqb year_of os).

(** A row of [yearly_sales] with its [LAG(total_sales) OVER (ORDER BY year)]. *)
Definition growth_row (r : value * value * value) : list value :=
  let total_sales := snd (fst r) in
  let previous := snd r in
  [fst (fst r); total_sales; previous;
   sql_div E (sql_mul E (sql_sub E total_sales previous) (VReal 100)) previous].

Definition yearly_growth_rate : query := fun d =>
  os ← orders_of d;
  years ← yearly_sales os;
  mret {| names := ["year"; "total_sales"; "previous_year_sales"; "growth_rate"];
          tuples := map growth_row (lag snd (sort_by (ascending fst) years)) |}.

(** The CTE [first_purchase]. *)
Definition first_purchase (os : list Orders.row) : list (value * value) :=
  map (fun g => (fst g, sql_min (map Orders.order_date (snd g))))
      (group_by value_eqb Orders.customer_id os).

(** The CTE [subsequent_purchases]. *)
Definition subsequent_purchases (os : list Orders.row) : list value :=
  distinct value_eqb
    (map (fun j => fst (fst j))
         (List.filter
            (fun j : value * value * Orders.row =>
               holds (sql_and
                        (sql_gt (Orders.order_date (snd j)) (snd (fst j)))
                        (sql_le (Orders.order_date (snd j))
                                (date E (snd (fst j)) (VText "+6 months")))))
            (join (first_purchase os) os
                  (fun f o => sql_eq (fst f) (Orders.customer_id o))))).

Definition retention_rate : query := fun d =>
  os ← orders_of d;
  let j := left_join (first_purchase os) (subsequent_purchases os)
                     (fun f s => sql_eq (fst f) s) in
  mret {| names := ["retention_rate"];
          tuples :=
            [[sql_div E
                (sql_mul E
                   (sql_count_distinct
                      (map (fun r : value * value * option value =>
                              match snd r with Some c => c | None => VNull end) j))
                   (VReal 100))
                (sql_count_distinct (map (fun r => fst (fst r)) j))]] |}.

(** The CTE [yearly_spending]: year, customer and total spent. *)
Definition yearly_spending (os : list Orders.row)
  : outcome (list (value * value * value)) :=
  sum_per_group E (fun g => (field 0 (fst g), field 1 (fst g)))
    (fun g => map Orders.amount (snd g))
    (group_by keys_eqb (fun o => [year_of o; Orders.customer_id o]) os).

(** [ROW_NUMBER() OVER (PARTITION BY year ORDER BY total_spent DESC)] over
    the rows of [yearly_spending]. *)
Definition ranked_spending (spending : list (value * value * value))
  : list (value * value * value * value) :=
  flat_map (fun g => row_number (sort_by (descending snd) (snd g)))
           (group_by value_eqb (fun s => fst (fst s)) spending).

Definition top_customers_per_year : query := fun d =>
  os ← orders_of d;
  spending ← yearly_spending os;
  mret {| names := ["year"; "customer_id"; "total_spent"];
          tuples :=
            map (fun r => [fst (fst (fst r)); snd (fst (fst r)); snd (fst r)])
                (List.filter (fun r => holds (sql_le (snd r) (VInt 3)))
                             (ranked_spending spending)) |}.

(** *** Running the catalog *)

(** [pd.read_sql(query, conn)] *)
Definition read_sql (q : query) : run relation :=
  fun w => (q (database w), w).

(** [print(label)], the query, [print(result)]. *)
Definition report (label : string) (q : query) : run unit :=
  print (Line label) ;;
  r ← read_sql q;
  print (Frame r).

Definition nl : string := String (ascii_of_nat 10) EmptyString.

Definition basic_queries : run unit :=
  report "1. List all unique cities where customers are located:" unique_cities ;;
  report (nl +:+ "2. Count the number of orders placed in 2017:") orders_2017 ;;
  report (nl +:+ "3. Find the total sales per category:") sales_per_category ;;
  report (nl +:+ "4. Calculate the percentage of orders that were paid in installments:")
         installments_percentage ;;
  report (nl +:+ "5. Count the number of customers from each state:") customers_by_state.

Definition intermediate_queries : run unit :=
  report (nl +:+ "1. Calculate the number of orders per month in 2018:")
         orders_per_month_2018 ;;
  report (nl +:+ "2. Find the average number of products per order, grouped by customer city:")
         avg_products_per_order_city ;;
  report (nl +:+ "3. Calculate the percentage of total revenue contributed by each product category:")
         percentage_revenue_per_category ;;
  report (nl +:+ "4. Identify the correlation between product price and the number of times a product has been purchased:")
         correlation ;;
  report (nl +:+ "5. Calculate the total revenue generated by each seller, and rank them by revenue:")
         revenue_per_seller.

Definition advanced_queries : run unit :=
  report (nl +:+ "1. Calculate the moving average of order values for each customer over their order history:")
         moving_avg ;;
  report (nl +:+ "2. Calculate the cumulative sales per month for each year:")
         cumulative_sales_per_month ;;
  report (nl +:+ "3. Calculate the year-over-year growth rate of total sales:")
         yearly_growth_rate ;;
  report (nl +:+ "4. Calculate the retention rate of customers, defined as the percentage of customers who make another purchase within 6 months of their first purchase:")
         retention_rate ;;
  report (nl +:+ "5. Identify the top 3 customers who spent the most money in each year:")
         top_customers_per_year.

Definition files_and_tables : list (string * string) :=
  [("customers.csv", "customers"); ("orders.csv", "orders");
   ("products.csv", "products"); ("order_products.csv", "order_products");
   ("sales.csv", "sales")].

Definition main : run unit :=
  create_tables ;;
  for_each files_and_tables (fun ft => load_csv_to_table (fst ft) (snd ft)) ;;
  basic_queries ;;
  intermediate_queries ;;
  advanced_queries.
End Queries.

(** ** The MySQL script *)




(** The world with another database behind the connection. *)
Definition with_database (w : world) (d : gmap string table) : world :=
  {| files := files w; database := d; stdout := stdout w |}.

(** The world with more printed. *)
Definition printing (w : world) (ps : list printed) : world :=
  {| files := files w; database := database w; stdout := stdout w ++ ps |}.

(** ** Vocabulary of the statements *)


(** The world after [CREATE TABLE IF NOT EXISTS]. *)
Definition ensure (name : string) (cols : list column) (fks : list foreign_key)
  (w : world) : world :=
  match database w !! name with
  | Some _ => w
  | None =>
      with_database w
        (<[name := {| columns := cols; foreign_keys := fks; rows := [] |}]> (database w))
  end.

Definition schema_tables : list string :=
  ["customers"; "orders"; "products"; "order_products"; "sales"].

(** The world after [DROP TABLE] of a table that may not exist. *)
Definition dropped (name : string) (w : world) : world :=
  match database w !! name with
  | Some _ => with_database w (delete name (database w))
  | None => w
  end.

(** The table [to_sql] leaves for a frame. *)
Definition frame_table (df : DataFrame) : table :=
  {| columns := map (fun c => plain (fst c) (sql_type (snd c))) (df_columns df);
     foreign_keys := [];
     rows := map (map sql_value) (df_rows df) |}.

(** The table [to_sql] leaves when the insert raises: created, without rows. *)
Definition declared_table (df : DataFrame) : table :=
  {| columns := map (fun c => plain (fst c) (sql_type (snd c))) (df_columns df);
     foreign_keys := [];
     rows := [] |}.

(** Every integer of the frame fits a 64-bit signed INTEGER. *)
Definition fits (df : DataFrame) : bool :=
  forallb (forallb storable) (map (map sql_value) (df_rows df)).

(** The frame [process_csv] hands to [to_sql]. *)
Definition processed (df : DataFrame) : DataFrame :=
  clean_columns (where_notnull_none df).

(** The characters [process_csv] replaces. *)
Definition unsafe (c : ascii) : bool :=
  Ascii.eqb c " " || Ascii.eqb c "-" || Ascii.eqb c ".".

Fixpoint has_unsafe (s : string) : bool :=
  match s with
  | EmptyString => false
  | String c s' => unsafe c || has_unsafe s'
  end.


(** The storage class of a value: NULL, number or text. *)
Inductive storage := SNull | SNumber | SText.

Definition storage_of (v : value) : storage :=
  match v with
  | VNull => SNull
  | VInt _ | VReal _ => SNumber
  | VText _ => SText
  end.

Definition text_of (v : value) : string :=
  match v with VText s => s | _ => EmptyString end.

(** What [value_eqb] decides. *)
Definition same_value (a b : value) : Prop :=
  storage_of a = storage_of b /\ value_Q a == value_Q b /\ text_of a = text_of b.

(** No two keys of the list are equal up to [eqb]. *)
Fixpoint apart {K} (eqb : K -> K -> bool) (l : list K) : Prop :=
  match l with
  | [] => True
  | k :: l' => (forall k', In k' l' -> eqb k' k = false) /\ apart eqb l'
  end.

Definition nsum (l : list nat) : nat := fold_right Nat.add 0 l.


(** The size of what a value adds to a SUM as an integer. *)
Definition integer_size (E : engine) (v : value) : Z :=
  match aggregand E v with
  | Some (NInt z) => Z.abs z
  | _ => 0%Z
  end.

(** The sizes of the integers of a column, added up: while this is within
    the 64-bit range, no SUM over rows of the column can overflow. *)
Definition integer_weight (E : engine) (vs : list value) : Z :=
  zsum (map (integer_size E) vs).

(** The value of a SUM that returns (NULL for one that fails). *)
Definition sum_or_null (E : engine) (vs : list value) : value :=
  match sql_sum E vs with
  | Returned v => v
  | Raised _ => VNull
  end.

Definition real_or_null (v : value) : bool :=
  match v with VNull | VReal _ => true | _ => false end.

(** The second column of a result, added up. *)
Definition second_column_total (r : relation) : Q :=
  qsum (map (fun row => value_Q (field 1 row)) (tuples r)).

(** The order amounts over the rows of the join the category queries
    group, and their sum. *)
Definition joined_amounts (os : list Orders.row) (ops : list OrderProducts.row)
  (ps : list Products.row) : list value :=
  map (fun j => Orders.amount (fst (fst j))) (category_join os ops ps).



(** The customers, up to equality, who have an order in the year [y]. *)
Definition customers_in_year (E : engine) (y : value) (os : list Orders.row) : list value :=
  distinct value_eqb
    (map Orders.customer_id (List.filter (fun o => value_eqb (year_of E o) y) os)).

(** The rows of a result whose first column is the year [y]. *)
Definition rows_of_year (y : value) (r : relation) : list (list value) :=
  List.filter (fun row => value_eqb (field 0 row) y) (tuples r).

(** The non-NULL references of [child] that no key of [parent] answers. *)
Definition orphans (child parent : list value) : list value :=
  List.filter
    (fun v => negb (is_null v) && negb (existsb (fun k => holds (sql_eq v k)) parent))
    child.

(** ** A concrete engine and concrete data, to run the definitions *)

Definition is_digit (c : ascii) : bool :=
  let n := nat_of_ascii c in (48 <=? n) && (n <=? 57).

(** The number two decimal digits stand for. *)
Definition two_digits (a b : ascii) : nat :=
  10 * (nat_of_ascii a - 48) + (nat_of_ascii b - 48).

(** A date YYYY-MM-DD with a month from 01 to 12 and a day from 01 to 31. *)
Definition is_date (s : string) : bool :=
  match list_ascii_of_string s with
  | [y1; y2; y3; y4; dash1; m1; m2; dash2; d1; d2] =>
      forallb is_digit [y1; y2; y3; y4; m1; m2; d1; d2]
      && Ascii.eqb dash1 "-" && Ascii.eqb dash2 "-"
      && (1 <=? two_digits m1 m2) && (two_digits m1 m2 <=? 12)
      && (1 <=? two_digits d1 d2) && (two_digits d1 d2 <=? 31)
  | _ => false
  end.

(** A [strftime] for the three formats of the scripts that reads dates of
    the form YYYY-MM-DD only: every other text is NULL to it, as a text such
    as 2017-01, without a day, is to SQLite. *)
Definition plain_strftime (format timestring : value) : value :=
  match format, timestring with
  | VText f, VText s =>
      if is_date s then
        if String.eqb f "%Y" then VText (substring 0 4 s)
        else if String.eqb f "%m" then VText (substring 5 2 s)
        else if String.eqb f "%Y-%m" then VText (substring 0 7 s)
        else VNull
      else VNull
  | _, _ => VNull
  end.

(** [date] is NULL; a text that is no number counts for 0. *)
Definition plain_engine : engine :=
  {| strftime := plain_strftime;
     date := fun _ _ => VNull;
     text_in_arithmetic := fun _ => NInt 0;
     text_in_aggregate := fun _ => NReal 0 |}.

Definition empty_world : world :=
  {| files := ∅; database := ∅; stdout := [] |}.

(** A file whose header has a space, a dash and a dot, and a missing cell. *)
Definition spaced_frame : DataFrame :=
  {| df_columns := [("order id", int64); ("unit-price", float64); ("ship.to", object_)];
     df_rows := [[PyInt 1; NaN; PyStr "LA"]; [PyInt 2; PyFloat 3; PyNone]] |}.

Definition spaced_world : world :=
  {| files := {["orders.csv" := Csv spaced_frame]}; database := ∅; stdout := [] |}.

(** The database right after [create_tables]: five empty tables. *)
Definition fresh_database : gmap string table :=
  database (snd (create_tables empty_world)).

(** Tables with the declared columns, as [to_sql] writes them. *)
Definition customers_table (rs : list (list value)) : table :=
  {| columns := [plain "customer_id" INTEGER; plain "name" TEXT; plain "city" TEXT;
                 plain "state" TEXT];
     foreign_keys := []; rows := rs |}.

Definition orders_table (rs : list (list value)) : table :=
  {| columns := [plain "order_id" INTEGER; plain "customer_id" INTEGER;
                 plain "order_date" TEXT; plain "amount" REAL; plain "payment_type" TEXT];
     foreign_keys := []; rows := rs |}.

Definition products_table (rs : list (list value)) : table :=
  {| columns := [plain "product_id" INTEGER; plain "category" TEXT; plain "price" REAL];
     foreign_keys := []; rows := rs |}.

Definition order_products_table (rs : list (list value)) : table :=
  {| columns := [plain "order_id" INTEGER; plain "product_id" INTEGER];
     foreign_keys := []; rows := rs |}.

(** Two orders, both of 2017. *)
Definition order_a : Orders.row :=
  {| Orders.order_id := VInt 1; Orders.customer_id := VInt 1;
     Orders.order_date := VText "2017-01-05"; Orders.amount := VReal 10;
     Orders.payment_type := VText "Card" |}.

Definition order_b : Orders.row :=
  {| Orders.order_id := VInt 2; Orders.customer_id := VInt 2;
     Orders.order_date := VText "2017-06-01"; Orders.amount := VReal 20;
     Orders.payment_type := VText "Installment" |}.

Definition one_year_database : gmap string table :=
  {["orders" :=
      orders_table [[VInt 1; VInt 1; VText "2017-01-05"; VReal 10; VText "Card"];
                    [VInt 2; VInt 2; VText "2017-06-01"; VReal 20; VText "Installment"]]]}.


(** Two orders with one product each. *)
Definition single_product_database : gmap string table :=
  <["orders" :=
      orders_table [[VInt 1; VInt 1; VText "2017-01-05"; VReal 10; VText "Card"];
                    [VInt 2; VInt 2; VText "2017-06-01"; VReal 20; VText "Installment"]]]>
  (<["products" := products_table [[VInt 1; VText "A"; VReal 5]; [VInt 2; VText "B"; VReal 6]]]>
  (<["order_products" := order_products_table [[VInt 1; VInt 1]; [VInt 2; VInt 2]]]> ∅)).

Definition product_a : Products.row :=
  {| Products.product_id := VInt 1; Products.category := VText "A";
     Products.price := VReal 5 |}.

Definition product_b : Products.row :=
  {| Products.product_id := VInt 2; Products.category := VText "B";
     Products.price := VReal 6 |}.

Definition link (o p : Z) : OrderProducts.row :=
  {| OrderProducts.order_id := VInt o; OrderProducts.product_id := VInt p |}.

(** Five files; the order refers to customer 7, who is in no file, and the
    order line to order 9 and product 9, which are in no file either. *)
Definition orphan_files : gmap string file :=
  <["customers.csv" :=
      Csv {| df_columns := [("customer_id", int64); ("name", object_); ("city", object_);
                            ("state", object_)];
             df_rows := [[PyInt 1; PyStr "Ann"; PyStr "NY"; PyStr "NY"]] |}]>
  (<["orders.csv" :=
       Csv {| df_columns := [("order_id", int64); ("customer_id", int64);
                             ("order_date", object_); ("amount", float64);
                             ("payment_type", object_)];
              df_rows := [[PyInt 1; PyInt 7; PyStr "2017-01-05"; PyFloat 10;
                           PyStr "Card"]] |}]>
  (<["products.csv" :=
       Csv {| df_columns := [("product_id", int64); ("category", object_);
                             ("price", float64)];
              df_rows := [[PyInt 1; PyStr "A"; PyFloat 5]] |}]>
  (<["order_products.csv" :=
       Csv {| df_columns := [("order_id", int64); ("product_id", int64)];
              df_rows := [[PyInt 9; PyInt 9]] |}]>
  (<["sales.csv" :=
       Csv {| df_columns := [("seller_id", int64); ("amount", float64)];
              df_rows := [[PyInt 1; PyFloat 5]] |}]> ∅)))).

Definition orphan_world : world :=
  {| files := orphan_files; database := ∅; stdout := [] |}.

Definition customer_ann : Customers.row :=
  {| Customers.customer_id := VInt 1; Customers.name := VText "Ann";
     Customers.city := VText "NY"; Customers.state := VText "NY" |}.

Definition order_of_customer_7 : Orders.row :=
  {| Orders.order_id := VInt 1; Orders.customer_id := VInt 7;
     Orders.order_date := VText "2017-01-05"; Orders.amount := VReal 10;
     Orders.payment_type := VText "Card" |}.

(** An orders file whose amounts are whole numbers, the largest 64-bit
    integer and 1: [read_csv] gives the column the dtype int64 and [to_sql]
    declares it INTEGER. *)
Definition big_amounts_frame : DataFrame :=
  {| df_columns := [("order_id", int64); ("customer_id", int64); ("order_date", object_);
                    ("amount", int64); ("payment_type", object_)];
     df_rows := [[PyInt 1; PyInt 1; PyStr "2017-01-05"; PyInt 9223372036854775807;
                  PyStr "Card"];
                 [PyInt 2; PyInt 1; PyStr "2017-06-01"; PyInt 1; PyStr "Card"]] |}.

Definition big_amounts_world : world :=
  {| files := {["orders.csv" := Csv big_amounts_frame]}; database := ∅; stdout := [] |}.

(** The database after that file is loaded. *)
Definition big_amounts_database : gmap string table :=
  database (snd (load_csv_to_table "orders.csv" "orders" big_amounts_world)).

Definition big_order (id : Z) (day : string) (amount : Z) : Orders.row :=
  {| Orders.order_id := VInt id; Orders.customer_id := VInt 1;
     Orders.order_date := VText day; Orders.amount := VInt amount;
     Orders.payment_type := VText "Card" |}.

(** ** Further vocabulary *)

(** A table without keys: no foreign key, no primary-key column. *)
Definition keyless (t : table) : Prop :=
  foreign_keys t = [] /\ Forall (fun c => col_primary_key c = false) (columns t).


(** The world after [create_tables] of the files and tables above. *)
Definition orphan_schema_world : world := snd (create_tables orphan_world).

(** The world after [create_tables] and the five loads of [main]. *)
Definition orphan_loaded_world : world :=
  snd ((create_tables ;;
        for_each files_and_tables (fun ft => load_csv_to_table (fst ft) (snd ft)))
         orphan_world).

(** A world with the orders of [one_year_database] and no file. *)
Definition fresh_world_with_orders : world :=
  {| files := ∅; database := one_year_database; stdout := [] |}.

(** The orders whose year, as [strftime] gives it, is the text [y]. *)
Definition orders_of_year (E : engine) (y : string) (os : list Orders.row)
  : list Orders.row :=
  List.filter (fun o => holds (sql_eq (year_of E o) (VText y))) os.

(** The first column of a result. *)
Definition first_column (r : relation) : list value := map (field 0) (tuples r).

(** A count of at least one. *)
Definition positive_count (v : value) : Prop :=
  exists n : nat, v = VInt (Z.of_nat n) /\ 1 <= n.

(** Three customers, two of them in the same city. *)
Definition three_customers_database : gmap string table :=
  {["customers" :=
      customers_table [[VInt 1; VText "Ann"; VText "NY"; VText "NY"];
                       [VInt 2; VText "Bob"; VText "NY"; VText "NY"];
                       [VInt 3; VText "Cyd"; VText "LA"; VText "CA"]]]}.

Definition customer_bob : Customers.row :=
  {| Customers.customer_id := VInt 2; Customers.name := VText "Bob";
     Customers.city := VText "NY"; Customers.state := VText "NY" |}.

Definition customer_cyd : Customers.row :=
  {| Customers.customer_id := VInt 3; Customers.name := VText "Cyd";
     Customers.city := VText "LA"; Customers.state := VText "CA" |}.

(** The orders paid in installments. *)
Definition installment_orders (os : list Orders.row) : list Orders.row :=
  List.filter (fun o => holds (sql_eq (Orders.payment_type o) (VText "Installment"))) os.

(** Every row is before the next one in the order [le]. *)
Fixpoint sorted_by {A} (le : A -> A -> bool) (l : list A) : Prop :=
  match l with
  | [] => True
  | a :: l' =>
      match l' with
      | [] => True
      | b :: _ => le a b = true
      end /\ sorted_by le l'
  end.

(** Orders of 2017, 2019 and 2021: the years of the table are not
    consecutive. *)
Definition gap_years_database : gmap string table :=
  {["orders" :=
      orders_table [[VInt 1; VInt 1; VText "2017-01-05"; VReal 10; VText "Card"];
                    [VInt 2; VInt 2; VText "2019-06-01"; VReal 0; VText "Card"];
                    [VInt 3; VInt 1; VText "2021-03-01"; VReal 5; VText "Card"]]]}.

Definition order_on (id customer : Z) (day : string) (amount : Q) : Orders.row :=
  {| Orders.order_id := VInt id; Orders.customer_id := VInt customer;
     Orders.order_date := VText day; Orders.amount := VReal amount;
     Orders.payment_type := VText "Card" |}.

(** One order of 2017 and three of 2018, two of them in January. *)
Definition orders_2018_database : gmap string table :=
  {["orders" :=
      orders_table [[VInt 1; VInt 1; VText "2017-12-30"; VReal 10; VText "Card"];
                    [VInt 2; VInt 2; VText "2018-01-02"; VReal 20; VText "Card"];
                    [VInt 3; VInt 1; VText "2018-03-09"; VReal 5; VText "Card"];
                    [VInt 4; VInt 3; VText "2018-01-20"; VReal 7; VText "Card"]]]}.

(** Whole amounts: one order of 10 with a product of category A, one of 30
    with a product of category B. *)
Definition whole_amounts_database : gmap string table :=
  <["orders" :=
      orders_table [[VInt 1; VInt 1; VText "2017-01-05"; VInt 10; VText "Card"];
                    [VInt 2; VInt 2; VText "2017-06-01"; VInt 30; VText "Card"]]]>
  (<["products" := products_table [[VInt 1; VText "A"; VReal 5]; [VInt 2; VText "B"; VReal 6]]]>
  (<["order_products" := order_products_table [[VInt 1; VInt 1]; [VInt 2; VInt 2]]]> ∅)).


Definition whole_order (id customer : Z) (day : string) (amount : Z) : Orders.row :=
  {| Orders.order_id := VInt id; Orders.customer_id := VInt customer;
     Orders.order_date := VText day; Orders.amount := VInt amount;
     Orders.payment_type := VText "Card" |}.

Definition is_integer (v : value) : bool :=
  match v with VInt _ => true | _ => false end.

(** Four customers with an order in 2017. *)
Definition four_customers_database : gmap string table :=
  {["orders" :=
      orders_table [[VInt 1; VInt 1; VText "2017-01-05"; VReal 10; VText "Card"];
                    [VInt 2; VInt 2; VText "2017-02-05"; VReal 40; VText "Card"];
                    [VInt 3; VInt 3; VText "2017-03-05"; VReal 30; VText "Card"];
                    [VInt 4; VInt 4; VText "2017-04-05"; VReal 20; VText "Card"]]]}.

(** A rate: NULL, or a REAL between 0 and 100. *)
Definition percentage_or_null (v : value) : Prop :=
  v = VNull \/ exists q, v = VReal q /\ (0 <= q)%Q /\ (q <= 100)%Q.

(** An engine as [plain_engine] whose [date] answers every date with the
    end of 9999, so that every later order is in the window. *)
Definition wide_window_engine : engine :=
  {| strftime := plain_strftime;
     date := fun _ _ => VText "9999-12-31";
     text_in_arithmetic := fun _ => NInt 0;
     text_in_aggregate := fun _ => NReal 0 |}.

(** Customer 1 orders twice, customer 2 once. *)
Definition returning_customer_database : gmap string table :=
  {["orders" :=
      orders_table [[VInt 1; VInt 1; VText "2017-01-05"; VReal 10; VText "Card"];
                    [VInt 2; VInt 1; VText "2017-02-05"; VReal 40; VText "Card"];
                    [VInt 3; VInt 2; VText "2017-03-05"; VReal 30; VText "Card"]]]}.








(** The size of what a number adds to a SUM as an integer. *)
Definition number_size (n : number) : Z :=
  match n with NInt z => Z.abs z | NReal _ => 0%Z end.


Definition integer_sum (s : summed) : bool :=
  match s with RealSum _ => false | _ => true end.

(** The labels [intermediate_queries] prints. *)
Definition orders_per_month_label : string :=
  nl +:+ "1. Calculate the number of orders per month in 2018:".

Definition avg_products_label : string :=
  nl +:+ "2. Find the average number of products per order, grouped by customer city:".

Definition percentage_revenue_label : string :=
  nl +:+ "3. Calculate the percentage of total revenue contributed by each product category:".

Definition correlation_label : string :=
  nl +:+ "4. Identify the correlation between product price and the number of times a product has been purchased:".

Definition revenue_per_seller_label : string :=
  nl +:+ "5. Calculate the total revenue generated by each seller, and rank them by revenue:".

(** [main] without its last two steps, [advanced_queries] and
    [conn.close()]. *)
Definition main_up_to_intermediate (E : engine) : run unit :=
  create_tables ;;
  for_each files_and_tables (fun ft => load_csv_to_table (fst ft) (snd ft)) ;;
  basic_queries E ;;
  intermediate_queries E.

(** * Properties *)

(** ** Running scripts *)

Ltac run_unfold :=
  unfold mbind, run_bind, mret, run_ret, outcome_bind, outcome_ret, fmap, outcome_fmap,
    get_database, set_database, raise in *.

Lemma with_database_same (w : world) : with_database w (database w) = w.
Proof. destruct w; reflexivity. Qed.

Lemma with_database_twice (w : world) (d d' : gmap string table) :
  with_database (with_database w d) d' = with_database w d'.
Proof. reflexivity. Qed.









(** A report prints its label, and the result when the query returns. *)
Lemma report_spec (label : string) (q : query) (w : world) :
  report label q w =
    match q (database w) with
    | Returned r => (Returned tt, printing w [Line label; Frame r])
    | Raised e => (Raised e, printing w [Line label])
    end.
Proof.
  unfold report, print, read_sql, printing. run_unfold. simpl.
  destruct (q (database w)); simpl; [rewrite <- app_assoc |]; reflexivity.
Qed.

Lemma report_then {A} (label : string) (q : query) (k : run A) (w : world) :
  (report label q ;; k) w =
    match q (database w) with
    | Returned r => k (printing w [Line label; Frame r])
    | Raised e => (Raised e, printing w [Line label])
    end.
Proof.
  unfold mbind at 1, run_bind. rewrite report_spec.
  destruct (q (database w)); reflexivity.
Qed.

Lemma printing_twice (w : world) (ps qs : list printed) :
  printing (printing w ps) qs = printing w (ps ++ qs).
Proof. unfold printing. simpl. rewrite <- app_assoc. reflexivity. Qed.

Lemma correlation_sql_incomplete : open_parentheses 0 correlation_sql = Some 1.
Proof. vm_compute. reflexivity. Qed.

(** ** The correlation statement *)

Lemma intermediate_queries_raise (E : engine) (w : world) :
  exists e w',
    intermediate_queries E w = (Raised e, w') /\
    database w' = database w /\
    files w' = files w /\
    length (stdout w') <= length (stdout w) + 7.
Proof.
  unfold intermediate_queries. rewrite report_then.
  destruct (orders_per_month_2018 E (database w)) as [r1 | e1].
  2: { eexists. eexists. split; [reflexivity |]. cbn. split; [reflexivity |].
       split; [reflexivity |]. rewrite !length_app. cbn. lia. }
  rewrite report_then. cbn [printing database].
  destruct (avg_products_per_order_city E (database w)) as [r2 | e2].
  2: { eexists. eexists. split; [reflexivity |]. cbn. split; [reflexivity |].
       split; [reflexivity |]. rewrite !length_app. cbn. lia. }
  rewrite report_then. cbn [printing database].
  destruct (percentage_revenue_per_category E (database w)) as [r3 | e3].
  2: { eexists. eexists. split; [reflexivity |]. cbn. split; [reflexivity |].
       split; [reflexivity |]. rewrite !length_app. cbn. lia. }
  rewrite report_then. unfold correlation.
  eexists. eexists. split; [reflexivity |]. cbn. split; [reflexivity |].
  split; [reflexivity |]. rewrite !length_app. cbn. lia.
Qed.

(** C9, at the point where the code departs from it: the text of
    intermediate query 4 leaves one parenthesis open, so the query raises on
    every database, and [intermediate_queries] raises in every world, leaving
    database and files as they are, after at most seven lines of output;
    when its first three queries return, it prints their three results and
    the label of query 4 and raises the syntax error.  Query 5 is never
    reached: in the world [main] has loaded from five small files,
    [intermediate_queries] raises without printing the label of query 5,
    although the report of query 5 run by itself returns and prints the
    revenue of the seller, and [advanced_queries] run by itself returns. *)
Theorem intermediate_queries_stop_at_the_correlation (E : engine) (w : world) :
  open_parentheses 0 correlation_sql = Some 1 /\
  complete correlation_sql = false /\
  correlation (database w) = Raised SyntaxError /\
  (exists e w',
      intermediate_queries E w = (Raised e, w') /\
      database w' = database w /\
      files w' = files w /\
      length (stdout w') <= length (stdout w) + 7) /\
  (forall r1 r2 r3,
      orders_per_month_2018 E (database w) = Returned r1 ->
      avg_products_per_order_city E (database w) = Returned r2 ->
      percentage_revenue_per_category E (database w) = Returned r3 ->
      intermediate_queries E w
      = (Raised SyntaxError,
         printing w [Line orders_per_month_label; Frame r1;
                     Line avg_products_label; Frame r2;
                     Line percentage_revenue_label; Frame r3;
                     Line correlation_label])) /\
  fst (intermediate_queries plain_engine orphan_loaded_world) = Raised SyntaxError /\
  ~ In (Line revenue_per_seller_label)
       (stdout (snd (intermediate_queries plain_engine orphan_loaded_world))) /\
  report revenue_per_seller_label (revenue_per_seller plain_engine) orphan_loaded_world
  = (Returned tt,
     printing orphan_loaded_world
       [Line revenue_per_seller_label;
        Frame {| names := ["seller_id"; "total_revenue"];
                 tuples := [[VInt 1; VReal 5]] |}]) /\
  fst (advanced_queries plain_engine orphan_loaded_world) = Returned tt.
Proof.
  split; [exact correlation_sql_incomplete |].
  split; [vm_compute; reflexivity |].
  split; [reflexivity |].
  split; [apply intermediate_queries_raise |].
  split.
  { intros r1 r2 r3 H1 H2 H3. unfold intermediate_queries.
    rewrite report_then, H1. rewrite report_then. cbn [printing database]. rewrite H2.
    rewrite report_then. cbn [printing database]. rewrite H3.
    rewrite report_then. unfold correlation.
    unfold printing. cbn [files database stdout]. rewrite <- !app_assoc. reflexivity. }
  split; [vm_compute; reflexivity |].
  split.
  { vm_compute. intros H.
    repeat match goal with
           | H : _ \/ _ |- _ => destruct H as [H | H]
           | H : Line _ = Line _ |- _ => discriminate H
           | H : Frame _ = Line _ |- _ => discriminate H
           end.
    exact H. }
  split; [vm_compute; reflexivity |].
  vm_compute. reflexivity.
Qed.

Lemma intermediate_queries_stop_at_the_correlation_witness :
  orders_per_month_2018 plain_engine (database orphan_loaded_world)
  = Returned {| names := ["month"; "order_count"]; tuples := [] |} /\
  avg_products_per_order_city plain_engine (database orphan_loaded_world)
  = Returned {| names := ["city"; "avg_products_per_order"]; tuples := [] |} /\
  percentage_revenue_per_category plain_engine (database orphan_loaded_world)
  = Returned {| names := ["category"; "percentage_revenue"]; tuples := [] |} /\
  intermediate_queries plain_engine orphan_loaded_world
  = (Raised SyntaxError,
     printing orphan_loaded_world
       [Line orders_per_month_label;
        Frame {| names := ["month"; "order_count"]; tuples := [] |};
        Line avg_products_label;
        Frame {| names := ["city"; "avg_products_per_order"]; tuples := [] |};
        Line percentage_revenue_label;
        Frame {| names := ["category"; "percentage_revenue"]; tuples := [] |};
        Line correlation_label]).
Proof.
  assert (H1 : orders_per_month_2018 plain_engine (database orphan_loaded_world)
               = Returned {| names := ["month"; "order_count"]; tuples := [] |})
    by (vm_compute; reflexivity).
  assert (H2 : avg_products_per_order_city plain_engine (database orphan_loaded_world)
               = Returned {| names := ["city"; "avg_products_per_order"]; tuples := [] |})
    by (vm_compute; reflexivity).
  assert (H3 : percentage_revenue_per_category plain_engine (database orphan_loaded_world)
               = Returned {| names := ["category"; "percentage_revenue"]; tuples := [] |})
    by (vm_compute; reflexivity).
  split; [exact H1 |]. split; [exact H2 |]. split; [exact H3 |].
  exact (proj1 (proj2 (proj2 (proj2 (proj2
           (intermediate_queries_stop_at_the_correlation plain_engine orphan_loaded_world)))))
           _ _ _ H1 H2 H3).
Defined.
(** ** The schema initializer *)

Lemma create_table_if_not_exists_spec (name : string) (cols : list column)
  (fks : list foreign_key) (w : world) :
  has_duplicates (map col_name cols) = false ->
  create_table_if_not_exists name cols fks w = (Returned tt, ensure name cols fks w).
Proof.
  intros Hdup. unfold create_table_if_not_exists, create_table, ensure. run_unfold.
  destruct (database w !! name); [reflexivity |].
  rewrite Hdup. reflexivity.
Qed.

Lemma ensure_present (name : string) (cols : list column) (fks : list foreign_key)
  (w : world) :
  is_Some (database w !! name) -> ensure name cols fks w = w.
Proof. intros [t Ht]. unfold ensure. rewrite Ht. reflexivity. Qed.

Lemma ensure_lookup (name other : string) (cols : list column) (fks : list foreign_key)
  (w : world) :
  name = other \/ is_Some (database w !! other) ->
  is_Some (database (ensure name cols fks w) !! other).
Proof.
  intros H. unfold ensure.
  destruct (database w !! name) eqn:Hn.
  - destruct H as [-> | H]; [rewrite Hn; eauto | exact H].
  - simpl. destruct (decide (name = other)) as [-> | Hne].
    + rewrite lookup_insert_eq. eauto.
    + rewrite lookup_insert_ne by exact Hne. destruct H; [contradiction | assumption].
Qed.

Lemma create_tables_spec (w : world) :
  create_tables w =
    (Returned tt,
     ensure "sales" [plain "seller_id" INTEGER; plain "amount" REAL] []
       (ensure "order_products" [plain "order_id" INTEGER; plain "product_id" INTEGER]
          [references "order_id" "orders" "order_id";
           references "product_id" "products" "product_id"]
          (ensure "products"
             [primary "product_id" INTEGER; plain "category" TEXT; plain "price" REAL] []
             (ensure "orders"
                [primary "order_id" INTEGER; plain "customer_id" INTEGER;
                 plain "order_date" TEXT; plain "amount" REAL; plain "payment_type" TEXT]
                [references "customer_id" "customers" "customer_id"]
                (ensure "customers"
                   [primary "customer_id" INTEGER; plain "name" TEXT; plain "city" TEXT;
                    plain "state" TEXT] [] w))))).
Proof.
  unfold create_tables. unfold mbind, run_bind.
  repeat (rewrite create_table_if_not_exists_spec by reflexivity).
  reflexivity.
Qed.

(** C8: [create_tables] never raises; run on a database that has the five
    tables it returns and leaves the world as it is; and running it twice is
    running it once. *)
Theorem create_tables_idempotent (w : world) :
  fst (create_tables w) = Returned tt /\
  (create_tables ;; create_tables) w = create_tables w /\
  (Forall (fun n => is_Some (database w !! n)) schema_tables ->
   create_tables w = (Returned tt, w)).
Proof.
  assert (Hpresent : forall w0 : world,
             Forall (fun n => is_Some (database w0 !! n)) schema_tables ->
             create_tables w0 = (Returned tt, w0)).
  { intros w0 H. rewrite create_tables_spec.
    unfold schema_tables in H.
    repeat match goal with
           | H : Forall _ (_ :: _) |- _ => inversion H; subst; clear H
           end.
    rewrite (ensure_present "customers") by assumption.
    rewrite (ensure_present "orders") by assumption.
    rewrite (ensure_present "products") by assumption.
    rewrite (ensure_present "order_products") by assumption.
    rewrite (ensure_present "sales") by assumption.
    reflexivity. }
  split; [| split].
  - rewrite create_tables_spec. reflexivity.
  - unfold mbind at 1, run_bind.
    rewrite create_tables_spec at 2. rewrite create_tables_spec at 1.
    apply Hpresent. unfold schema_tables.
    repeat constructor; repeat (apply ensure_lookup; first [left; reflexivity | right]).
  - apply Hpresent.
Qed.

(** The five tables exist once [create_tables] has run on an empty database. *)
Lemma create_tables_idempotent_witness :
  Forall (fun n => is_Some (database (snd (create_tables empty_world)) !! n)) schema_tables /\
  create_tables (snd (create_tables empty_world))
  = (Returned tt, snd (create_tables empty_world)).
Proof.
  assert (H : Forall (fun n => is_Some (database (snd (create_tables empty_world)) !! n))
                     schema_tables).
  { unfold schema_tables. repeat constructor; vm_compute; eauto. }
  split; [exact H |].
  exact (proj2 (proj2 (create_tables_idempotent (snd (create_tables empty_world)))) H).
Defined.

(** ** The loaders *)

Lemma frame_table_names (df : DataFrame) :
  map col_name (columns (frame_table df)) = map fst (df_columns df).
Proof. simpl. rewrite map_map. reflexivity. Qed.

(** [to_sql] in one step: it raises, the old table gone, when two columns
    share a name; it raises, the table created and left empty, when an
    integer of the frame does not fit; and otherwise it puts the frame's
    table under the name. *)
Lemma to_sql_spec (df : DataFrame) (name : string) (w : world) :
  to_sql df name w =
    if has_duplicates (map fst (df_columns df))
    then (Raised (DuplicateColumn name), dropped name w)
    else if fits df
         then (Returned tt, with_database w (<[name := frame_table df]> (database w)))
         else (Raised (OverflowError name),
               with_database w (<[name := declared_table df]> (database w))).
Proof.
  unfold to_sql, drop_table, create_table, insert_rows, dropped, fits. run_unfold.
  pose proof (frame_table_names df) as Hn. simpl in Hn. rewrite Hn. clear Hn.
  destruct (database w !! name) eqn:Hlook;
    destruct (has_duplicates (map fst (df_columns df))); simpl; try reflexivity;
    rewrite lookup_insert_eq;
    destruct (forallb (forallb storable) (map (map sql_value) (df_rows df)));
    simpl; unfold with_database, frame_table, declared_table; simpl;
    rewrite ?insert_insert_eq, ?insert_delete_eq; reflexivity.
Qed.

Lemma dropped_twice (name : string) (w : world) :
  dropped name (dropped name w) = dropped name w.
Proof.
  unfold dropped. destruct (database w !! name) eqn:H.
  - simpl. rewrite lookup_delete_eq. reflexivity.
  - rewrite H. reflexivity.
Qed.

Lemma to_sql_again (df : DataFrame) (name : string) (w : world) :
  to_sql df name (snd (to_sql df name w)) = to_sql df name w.
Proof.
  rewrite !to_sql_spec.
  destruct (has_duplicates (map fst (df_columns df))); simpl.
  - rewrite dropped_twice. reflexivity.
  - destruct (fits df); unfold with_database; simpl; rewrite insert_insert_eq; reflexivity.
Qed.

Lemma to_sql_files (df : DataFrame) (name : string) (w : world) :
  files (snd (to_sql df name w)) = files w.
Proof.
  rewrite to_sql_spec. unfold dropped.
  destruct (has_duplicates _); simpl;
    [destruct (database w !! name) | destruct (fits df)]; reflexivity.
Qed.

Lemma to_sql_stdout (df : DataFrame) (name : string) (w : world) :
  stdout (snd (to_sql df name w)) = stdout w.
Proof.
  rewrite to_sql_spec. unfold dropped.
  destruct (has_duplicates _); simpl;
    [destruct (database w !! name) | destruct (fits df)]; reflexivity.
Qed.

Lemma to_sql_other_table (df : DataFrame) (name other : string) (w : world) :
  other <> name ->
  database (snd (to_sql df name w)) !! other = database w !! other.
Proof.
  intros Hne. rewrite to_sql_spec. unfold dropped.
  destruct (has_duplicates (map fst (df_columns df))); simpl.
  - destruct (database w !! name); simpl; [| reflexivity].
    apply lookup_delete_ne. congruence.
  - destruct (fits df); simpl; apply lookup_insert_ne; congruence.
Qed.

(** The two loaders, by the file they are given. *)
Lemma load_csv_to_table_spec (file_path table_name : string) (w : world) :
  load_csv_to_table file_path table_name w =
    match files w !! file_path with
    | Some (Csv df) => to_sql df table_name w
    | Some NoColumns => (Raised (EmptyDataError file_path), w)
    | Some Unparsable => (Raised (ParserError file_path), w)
    | None => (Raised (FileNotFound file_path), w)
    end.
Proof.
  unfold load_csv_to_table, read_csv. run_unfold.
  destruct (files w !! file_path) as [[df | |] |]; reflexivity.
Qed.

Lemma process_csv_spec (file_path table_name : string) (w : world) :
  process_csv file_path table_name w =
    match files w !! file_path with
    | Some (Csv df) => to_sql (processed df) table_name w
    | Some NoColumns => (Raised (EmptyDataError file_path), w)
    | Some Unparsable => (Raised (ParserError file_path), w)
    | None => (Raised (FileNotFound file_path), w)
    end.
Proof.
  unfold process_csv, read_csv, processed. run_unfold.
  destruct (files w !! file_path) as [[df | |] |]; reflexivity.
Qed.

Lemma load_csv_to_table_again (file_path table_name : string) (w : world) :
  load_csv_to_table file_path table_name (snd (load_csv_to_table file_path table_name w))
  = load_csv_to_table file_path table_name w.
Proof.
  rewrite (load_csv_to_table_spec file_path table_name w).
  destruct (files w !! file_path) as [[df | |] |] eqn:Hf;
    try (cbn [snd]; rewrite load_csv_to_table_spec, Hf; reflexivity).
  rewrite load_csv_to_table_spec, to_sql_files, Hf. apply to_sql_again.
Qed.

Lemma process_csv_again (file_path table_name : string) (w : world) :
  process_csv file_path table_name (snd (process_csv file_path table_name w))
  = process_csv file_path table_name w.
Proof.
  rewrite (process_csv_spec file_path table_name w).
  destruct (files w !! file_path) as [[df | |] |] eqn:Hf;
    try (cbn [snd]; rewrite process_csv_spec, Hf; reflexivity).
  rewrite process_csv_spec, to_sql_files, Hf. apply to_sql_again.
Qed.

Lemma run_twice {A} (m : run A) (w : world) :
  m (snd (m w)) = m w -> (m ;; m) w = m w.
Proof.
  intros H. unfold mbind, run_bind.
  destruct (m w) as [[a | e] w'] eqn:Hm; simpl in H; [exact H | reflexivity].
Qed.

(** C7: whatever the file, the table name and the database before, loading
    the same file into the same table a second time gives the outcome of
    the first load and leaves the world (so the table) as the first load
    left it; this holds for a second run started afresh and for two loads
    in sequence, and for both loaders. *)
Theorem loading_twice_is_loading_once (file_path table_name : string) (w : world) :
  load_csv_to_table file_path table_name (snd (load_csv_to_table file_path table_name w))
  = load_csv_to_table file_path table_name w /\
  (load_csv_to_table file_path table_name ;; load_csv_to_table file_path table_name) w
  = load_csv_to_table file_path table_name w /\
  process_csv file_path table_name (snd (process_csv file_path table_name w))
  = process_csv file_path table_name w /\
  (process_csv file_path table_name ;; process_csv file_path table_name) w
  = process_csv file_path table_name w.
Proof.
  split; [| split; [| split]].
  - apply load_csv_to_table_again.
  - apply run_twice, load_csv_to_table_again.
  - apply process_csv_again.
  - apply run_twice, process_csv_again.
Qed.








(** ** Values *)

Lemma is_Eq (c : comparison) :
  match c with Eq => true | _ => false end = true <-> c = Eq.
Proof. destruct c; split; congruence. Qed.

Lemma value_eqb_same (a b : value) : value_eqb a b = true <-> same_value a b.
Proof.
  unfold value_eqb, same_value. rewrite is_Eq.
  destruct a as [| x | p | s], b as [| y | q | t]; simpl;
    try (split; [discriminate | intros (H & _); discriminate H]);
    try (rewrite <- Qeq_alt; tauto).
  - split; [intros _; repeat split; reflexivity | reflexivity].
  - split.
    + intros H. apply String.compare_eq_iff in H. subst. repeat split; reflexivity.
    + intros (_ & _ & ->). pose proof (String.compare_antisym t t) as H.
      destruct (String.compare t t); simpl in H; congruence.
Qed.

Lemma same_value_refl (a : value) : same_value a a.
Proof. repeat split; reflexivity. Qed.

Lemma same_value_sym (a b : value) : same_value a b -> same_value b a.
Proof. intros (H1 & H2 & H3). repeat split; symmetry; assumption. Qed.

Lemma same_value_trans (a b c : value) :
  same_value a b -> same_value b c -> same_value a c.
Proof.
  intros (H1 & H2 & H3) (K1 & K2 & K3). repeat split.
  - congruence.
  - rewrite H2. exact K2.
  - congruence.
Qed.

Lemma value_eqb_refl (a : value) : value_eqb a a = true.
Proof. apply value_eqb_same, same_value_refl. Qed.

Lemma value_eqb_sym (a b : value) : value_eqb a b = value_eqb b a.
Proof.
  destruct (value_eqb a b) eqn:H1, (value_eqb b a) eqn:H2; try reflexivity.
  - apply value_eqb_same, same_value_sym, value_eqb_same in H1. congruence.
  - apply value_eqb_same, same_value_sym, value_eqb_same in H2. congruence.
Qed.

Lemma value_eqb_trans (a b c : value) :
  value_eqb a b = true -> value_eqb b c = true -> value_eqb a c = true.
Proof.
  rewrite !value_eqb_same. apply same_value_trans.
Qed.

(** ** DISTINCT and GROUP BY *)

Section Grouping.
Context {K : Type} (eqb : K -> K -> bool).
Hypothesis eqb_refl : forall a, eqb a a = true.
Hypothesis eqb_sym : forall a b, eqb a b = eqb b a.
Hypothesis eqb_trans : forall a b c, eqb a b = true -> eqb b c = true -> eqb a c = true.

Lemma distinct_from_seen (seen l : list K) :
  (forall k, In k l -> existsb (eqb k) seen = true) -> distinct_from eqb seen l = [].
Proof using Type.
  induction l as [| k l IH]; intros H; simpl; [reflexivity |].
  rewrite (H k) by (left; reflexivity). apply IH. intros k' Hk'. apply H. right. exact Hk'.
Qed.

Lemma distinct_from_In (seen l : list K) (k : K) :
  In k (distinct_from eqb seen l) -> In k l /\ existsb (eqb k) seen = false.
Proof using Type.
  revert seen. induction l as [| a l IH]; intros seen; simpl; [tauto |].
  destruct (existsb (eqb a) seen) eqn:Ha.
  - intros H. apply IH in H. tauto.
  - intros [<- | H]; [tauto |]. apply IH in H. destruct H as [H1 H2].
    simpl in H2. apply orb_false_iff in H2. tauto.
Qed.

Lemma distinct_In (l : list K) (k : K) : In k (distinct eqb l) -> In k l.
Proof using Type. intros H. apply distinct_from_In in H. tauto. Qed.

Lemma distinct_from_covers (seen l : list K) (k : K) :
  In k l ->
  existsb (eqb k) seen = true \/
  exists k', In k' (distinct_from eqb seen l) /\ eqb k k' = true.
Proof using eqb_refl eqb_sym eqb_trans.
  revert seen. induction l as [| a l IH]; intros seen; simpl; [tauto |].
  intros [-> | Hin].
  - destruct (existsb (eqb k) seen) eqn:Hk; [left; reflexivity |].
    right. exists k. split; [left; reflexivity | apply eqb_refl].
  - destruct (existsb (eqb a) seen) eqn:Ha.
    + apply IH. exact Hin.
    + destruct (IH (a :: seen) Hin) as [H | (k' & H1 & H2)].
      * simpl in H. apply orb_true_iff in H. destruct H as [H | H].
        -- right. exists a. split; [left; reflexivity | exact H].
        -- left. exact H.
      * right. exists k'. split; [right; exact H1 | exact H2].
Qed.

Lemma distinct_covers (l : list K) (k : K) :
  In k l -> exists k', In k' (distinct eqb l) /\ eqb k k' = true.
Proof using eqb_refl eqb_sym eqb_trans.
  intros H. destruct (distinct_from_covers [] l k H) as [H' | H']; [discriminate | exact H'].
Qed.

Lemma distinct_from_apart (seen l : list K) : apart eqb (distinct_from eqb seen l).
Proof using Type.
  revert seen. induction l as [| a l IH]; intros seen; simpl; [exact I |].
  destruct (existsb (eqb a) seen); [apply IH |].
  simpl. split; [| apply IH].
  intros k' Hk'. apply distinct_from_In in Hk'. destruct Hk' as [_ Hk'].
  simpl in Hk'. apply orb_false_iff in Hk'. tauto.
Qed.

Lemma distinct_apart (l : list K) : apart eqb (distinct eqb l).
Proof using Type. apply distinct_from_apart. Qed.

(** A filter that cannot tell equal keys apart commutes with DISTINCT. *)
Lemma filter_distinct_from (P : K -> bool) (seen l : list K) :
  (forall a b, eqb a b = true -> P a = P b) ->
  List.filter P (distinct_from eqb seen l)
  = distinct_from eqb (List.filter P seen) (List.filter P l).
Proof using Type.
  intros HP. revert seen. induction l as [| a l IH]; intros seen; simpl; [reflexivity |].
  assert (Hseen : P a = true ->
                  existsb (eqb a) (List.filter P seen) = existsb (eqb a) seen).
  { intros Pa. clear IH. induction seen as [| s seen IHs]; simpl; [reflexivity |].
    destruct (P s) eqn:Ps; simpl.
    - rewrite IHs. reflexivity.
    - rewrite IHs. destruct (eqb a s) eqn:Has; [| reflexivity].
      apply HP in Has. congruence. }
  destruct (P a) eqn:Pa.
  - simpl. rewrite Hseen by reflexivity.
    destruct (existsb (eqb a) seen); [apply IH |].
    simpl. rewrite Pa. rewrite IH. simpl. rewrite Pa. reflexivity.
  - destruct (existsb (eqb a) seen); [apply IH |].
    simpl. rewrite Pa. rewrite IH. simpl. rewrite Pa. reflexivity.
Qed.

Lemma filter_distinct (P : K -> bool) (l : list K) :
  (forall a b, eqb a b = true -> P a = P b) ->
  List.filter P (distinct eqb l) = distinct eqb (List.filter P l).
Proof using Type. intros HP. apply (filter_distinct_from P [] l HP). Qed.

(** Among keys that are apart, at most one equals [y]. *)
Lemma nsum_apart (F : K -> nat) (y : K) (ks : list K) :
  apart eqb ks ->
  nsum (map (fun k => if eqb k y then F k else 0) ks)
  = match find (fun k => eqb k y) ks with Some k => F k | None => 0 end.
Proof using eqb_sym eqb_trans.
  induction ks as [| k ks IH]; simpl; [reflexivity |].
  intros [Hk Hks]. destruct (eqb k y) eqn:Hky.
  - assert (Hrest : map (fun k0 => if eqb k0 y then F k0 else 0) ks = map (fun _ => 0) ks).
    { apply map_ext_in. intros k' Hk'. destruct (eqb k' y) eqn:Hk'y; [| reflexivity].
      rewrite (eqb_sym k y) in Hky. pose proof (eqb_trans _ _ _ Hk'y Hky) as Hc.
      rewrite (Hk k' Hk') in Hc. discriminate Hc. }
    rewrite Hrest. clear. induction ks; simpl; [lia | exact IHks].
  - rewrite IH by exact Hks. reflexivity.
Qed.
End Grouping.

(** ** Ratios over an empty orders table *)

(** C10: on a database whose orders table has the declared columns and no
    row, the percentage-of-installments query and the retention-rate query
    each return one row holding NULL; neither raises. *)
Theorem ratio_queries_on_empty_orders (E : engine) (d : gmap string table) :
  orders_of d = Returned [] ->
  installments_percentage E d
  = Returned {| names := ["percentage_installments"]; tuples := [[VNull]] |} /\
  retention_rate E d
  = Returned {| names := ["retention_rate"]; tuples := [[VNull]] |}.
Proof.
  intros H. unfold installments_percentage, retention_rate.
  rewrite H. split; reflexivity.
Qed.

Lemma ratio_queries_on_empty_orders_witness :
  orders_of fresh_database = Returned [] /\
  installments_percentage plain_engine fresh_database
  = Returned {| names := ["percentage_installments"]; tuples := [[VNull]] |} /\
  retention_rate plain_engine fresh_database
  = Returned {| names := ["retention_rate"]; tuples := [[VNull]] |}.
Proof.
  split; [reflexivity |].
  apply (ratio_queries_on_empty_orders plain_engine fresh_database). reflexivity.
Defined.

(** ** Year-over-year growth *)

Lemma group_by_one_key {A} (key : A -> value) (a : A) (l : list A) :
  (forall b, In b l -> value_eqb (key b) (key a) = true) ->
  group_by value_eqb key (a :: l) = [(key a, a :: l)].
Proof.
  intros H. unfold group_by, distinct. simpl.
  rewrite distinct_from_seen.
  - simpl. rewrite value_eqb_refl. f_equal. f_equal. f_equal.
    clear -H. induction l as [| b l IH]; simpl; [reflexivity |].
    rewrite (H b) by (left; reflexivity). f_equal. apply IH.
    intros b' Hb'. apply H. right. exact Hb'.
  - intros k Hk. apply in_map_iff in Hk. destruct Hk as [b [<- Hb]].
    simpl. rewrite (H b Hb). reflexivity.
Qed.

Lemma arith_null_r (E : engine) (fz : Z -> Z -> Z) (fq : Q -> Q -> Q) (a : value) :
  arith E fz fq a VNull = VNull.
Proof. unfold arith. simpl. destruct (operand E a) as [[|]|]; reflexivity. Qed.

(** ** Sums *)

Local Open Scope Q_scope.

Lemma qsum_app (l1 l2 : list Q) : qsum (l1 ++ l2) == qsum l1 + qsum l2.
Proof.
  induction l1 as [| x l1 IH]; simpl; [ring |]. rewrite IH. ring.
Qed.

Lemma qsum_ext {A} (f g : A -> Q) (l : list A) :
  (forall a, In a l -> f a == g a) -> qsum (map f l) == qsum (map g l).
Proof.
  induction l as [| a l IH]; intros H; simpl; [reflexivity |].
  rewrite (H a) by (left; reflexivity). rewrite IH; [reflexivity |].
  intros b Hb. apply H. right. exact Hb.
Qed.

Lemma qsum_plus {A} (f g : A -> Q) (l : list A) :
  qsum (map (fun a => f a + g a) l) == qsum (map f l) + qsum (map g l).
Proof.
  induction l as [| a l IH]; simpl; [ring |]. rewrite IH. ring.
Qed.


Lemma qsum_zero {A} (l : list A) : qsum (map (fun _ => 0) l) == 0.
Proof. induction l as [| a l IH]; simpl; [reflexivity |]. rewrite IH. ring. Qed.

Section Regrouping.
Context {A K : Type} (eqb : K -> K -> bool) (key : A -> K) (f : A -> Q).
Hypothesis eqb_refl : forall a, eqb a a = true.
Hypothesis eqb_sym : forall a b, eqb a b = eqb b a.
Hypothesis eqb_trans : forall a b c, eqb a b = true -> eqb b c = true -> eqb a c = true.

Lemma qsum_apart (x : K) (c : Q) (ks : list K) :
  apart eqb ks ->
  (exists k, In k ks /\ eqb x k = true) ->
  qsum (map (fun k => if eqb x k then c else 0) ks) == c.
Proof using eqb_sym eqb_trans.
  induction ks as [| k ks IH]; simpl.
  - intros _ (k & [] & _).
  - intros [Hk Hks] (k0 & Hin & Hx). destruct (eqb x k) eqn:Hxk.
    + rewrite (qsum_ext _ (fun _ => 0)).
      * rewrite qsum_zero. ring.
      * intros k' Hk'. destruct (eqb x k') eqn:Hxk'; [| reflexivity].
        rewrite (eqb_sym x k') in Hxk'. pose proof (eqb_trans _ _ _ Hxk' Hxk) as Hc.
        rewrite (Hk k' Hk') in Hc. discriminate Hc.
    + destruct Hin as [-> | Hin]; [congruence |].
      rewrite IH; [ring | exact Hks | exists k0; tauto].
Qed.

(** The sums of the groups add up to the sum of all rows. *)
Lemma qsum_groups (l : list A) :
  qsum (map (fun g => qsum (map f (snd g))) (group_by eqb key l)) == qsum (map f l).
Proof using eqb_refl eqb_sym eqb_trans.
  unfold group_by. rewrite map_map. cbn [snd].
  pose proof (distinct_apart eqb (map key l)) as Hapart.
  assert (Hcover : forall a, In a l ->
                     exists k, In k (distinct eqb (map key l)) /\ eqb (key a) k = true).
  { intros a Ha. apply (distinct_covers eqb eqb_refl eqb_sym eqb_trans).
    apply in_map. exact Ha. }
  revert Hapart Hcover. generalize (distinct eqb (map key l)) as ks. intros ks Hapart.
  induction l as [| a l IH]; intros Hcover.
  - simpl. apply qsum_zero.
  - cbn [List.filter map qsum fold_right].
    rewrite (qsum_ext _ (fun k => (if eqb (key a) k then f a else 0)
                                  + qsum (map f (List.filter (fun b => eqb (key b) k) l)))).
    + rewrite qsum_plus. rewrite IH.
      * rewrite qsum_apart; [reflexivity | exact Hapart |].
        apply Hcover. left. reflexivity.
      * intros b Hb. apply Hcover. right. exact Hb.
    + intros k _. unfold qsum. destruct (eqb (key a) k); simpl; ring.
Qed.
End Regrouping.






(** The only error of a SUM. *)
Lemma sql_sum_raises (E : engine) (vs : list value) (e : error) :
  sql_sum E vs = Raised e -> e = IntegerOverflow.
Proof.
  unfold sql_sum. destruct (fold_left sum_step (aggregands E vs) NoValue);
    intros H; inversion H; reflexivity.
Qed.

Lemma sql_sum_storage (E : engine) (vs : list value) (v : value) :
  sql_sum E vs = Returned v -> storage_of v <> SText.
Proof.
  unfold sql_sum. destruct (fold_left sum_step (aggregands E vs) NoValue);
    intros H; inversion H; discriminate.
Qed.


Lemma sum_or_null_returned (E : engine) (vs : list value) (v : value) :
  sql_sum E vs = Returned v -> sum_or_null E vs = v.
Proof. intros H. unfold sum_or_null. rewrite H. reflexivity. Qed.

Local Close Scope Q_scope.

(** *** SUMs that do not overflow *)

Lemma in_int64_abs (z : Z) : (Z.abs z <= max_int64)%Z -> in_int64 z = true.
Proof.
  unfold in_int64, min_int64, max_int64. intros H.
  apply andb_true_iff. split; apply Z.leb_le; lia.
Qed.

Lemma number_sizes_nonneg (ns : list number) : (0 <= zsum (map number_size ns))%Z.
Proof.
  induction ns as [| n ns IH]; [cbn; lia |].
  cbn [map]. unfold zsum in *. cbn [fold_right].
  destruct n; cbn [number_size]; lia.
Qed.

Lemma fold_sum_bounded (ns : list number) (acc : summed) :
  match acc with
  | NoValue => (zsum (map number_size ns) <= max_int64)%Z
  | IntSum a => (Z.abs a + zsum (map number_size ns) <= max_int64)%Z
  | RealSum _ => True
  | Overflowed => False
  end ->
  fold_left sum_step ns acc <> Overflowed.
Proof.
  revert acc. induction ns as [| n ns IH]; intros acc H.
  - destruct acc; cbn; try discriminate. contradiction.
  - cbn [fold_left]. apply IH. pose proof (number_sizes_nonneg ns) as Hn.
    unfold zsum in *. cbn [map fold_right] in H.
    destruct acc as [| a | r |], n as [z | q]; cbn [sum_step number_size] in *;
      try exact I; try contradiction.
    + rewrite in_int64_abs by lia. lia.
    + rewrite in_int64_abs by lia. lia.
Qed.

Lemma integer_size_nonneg (E : engine) (v : value) : (0 <= integer_size E v)%Z.
Proof. unfold integer_size. destruct (aggregand E v) as [[z | q] |]; lia. Qed.

Lemma integer_weight_nonneg (E : engine) (vs : list value) : (0 <= integer_weight E vs)%Z.
Proof.
  unfold integer_weight, zsum. induction vs as [| v vs IH]; cbn [map fold_right]; [lia |].
  pose proof (integer_size_nonneg E v). lia.
Qed.

Lemma aggregands_sizes (E : engine) (vs : list value) :
  zsum (map number_size (aggregands E vs)) = integer_weight E vs.
Proof.
  unfold integer_weight, zsum. induction vs as [| v vs IH]; [reflexivity |].
  cbn [aggregands map fold_right]. unfold integer_size at 1.
  destruct (aggregand E v) as [[z | q] |]; cbn [map fold_right number_size];
    rewrite IH; reflexivity.
Qed.

(** REAL and NULL values weigh nothing. *)
Lemma integer_weight_real (E : engine) (vs : list value) :
  (forall v, In v vs -> real_or_null v = true) -> integer_weight E vs = 0%Z.
Proof.
  unfold integer_weight, zsum. induction vs as [| v vs IH]; intros H; [reflexivity |].
  cbn [map fold_right]. rewrite IH by (intros v' Hv'; apply H; right; exact Hv').
  pose proof (H v (or_introl eq_refl)) as Hv.
  destruct v; try discriminate Hv; reflexivity.
Qed.

(** A SUM returns while the sizes of its integers add up within the 64-bit
    range. *)
Lemma sql_sum_returns (E : engine) (vs : list value) :
  (integer_weight E vs <= max_int64)%Z -> exists v, sql_sum E vs = Returned v.
Proof.
  intros H. rewrite <- aggregands_sizes in H.
  apply (fold_sum_bounded _ NoValue) in H. unfold sql_sum.
  destruct (fold_left sum_step (aggregands E vs) NoValue); eauto.
  exfalso. apply H. reflexivity.
Qed.

Lemma integer_weight_filter (E : engine) {A} (x : A -> value) (P : A -> bool)
  (l : list A) :
  (integer_weight E (map x (List.filter P l)) <= integer_weight E (map x l))%Z.
Proof.
  unfold integer_weight, zsum. induction l as [| a l IH]; [cbn; lia |].
  cbn [List.filter]. pose proof (integer_size_nonneg E (x a)).
  destruct (P a); cbn [map fold_right]; lia.
Qed.

(** *** SUM per group *)

Lemma sum_per_group_returned (E : engine) {G B} (label : G -> B) (xs : G -> list value)
  (gs : list G) (rs : list (B * value)) :
  sum_per_group E label xs gs = Returned rs ->
  rs = map (fun g => (label g, sum_or_null E (xs g))) gs /\
  (forall g, In g gs -> sql_sum E (xs g) = Returned (sum_or_null E (xs g))).
Proof.
  unfold sum_per_group. revert rs. induction gs as [| g gs IH]; intros rs H.
  - cbn in H. injection H as <-. split; [reflexivity | intros g []].
  - cbn [traverse] in H.
    destruct (sql_sum E (xs g)) as [v | e] eqn:Hv; [| discriminate H].
    destruct (traverse _ gs) as [rs' | e] eqn:Hrs; [| discriminate H].
    injection H as <-. destruct (IH rs' eq_refl) as [-> Hall].
    pose proof (sum_or_null_returned E _ _ Hv) as Hs. split.
    + cbn [map]. rewrite Hs. reflexivity.
    + intros g' [<- | Hg']; [rewrite Hs; exact Hv | apply Hall; exact Hg'].
Qed.

Lemma sum_per_group_raises (E : engine) {G B} (label : G -> B) (xs : G -> list value)
  (gs : list G) (e : error) :
  sum_per_group E label xs gs = Raised e -> e = IntegerOverflow.
Proof.
  unfold sum_per_group. induction gs as [| g gs IH]; intros H; [discriminate H |].
  cbn [traverse] in H.
  destruct (sql_sum E (xs g)) as [v | e'] eqn:Hv.
  - destruct (traverse _ gs) as [rs' | e'']; [discriminate H |].
    injection H as <-. apply IH. reflexivity.
  - injection H as <-. apply (sql_sum_raises E _ _ Hv).
Qed.

Lemma sum_per_group_returns (E : engine) {G B} (label : G -> B) (xs : G -> list value)
  (gs : list G) :
  (forall g, In g gs -> exists v, sql_sum E (xs g) = Returned v) ->
  exists rs, sum_per_group E label xs gs = Returned rs.
Proof.
  unfold sum_per_group. induction gs as [| g gs IH]; intros H; [eexists; reflexivity |].
  cbn [traverse]. destruct (H g (or_introl eq_refl)) as (v & ->).
  destruct IH as (rs & ->); [intros g' Hg'; apply H; right; exact Hg' |].
  eexists. reflexivity.
Qed.

(** The SUMs of a GROUP BY return while the sizes of the integers of the
    column add up within the 64-bit range. *)
Lemma group_sums_return (E : engine) {A K B} (eqb : K -> K -> bool) (key : A -> K)
  (label : K * list A -> B) (x : A -> value) (l : list A) :
  (integer_weight E (map x l) <= max_int64)%Z ->
  exists rs,
    sum_per_group E label (fun g => map x (snd g)) (group_by eqb key l) = Returned rs.
Proof.
  intros H. apply sum_per_group_returns. intros g Hg.
  unfold group_by in Hg. apply in_map_iff in Hg. destruct Hg as (k & <- & _).
  cbn [snd]. apply sql_sum_returns.
  pose proof (integer_weight_filter E x (fun a => eqb (key a) k) l). lia.
Qed.

(** ** Year-over-year growth *)

Ltac outcome_unfold :=
  unfold mbind, outcome_bind, mret, outcome_ret, fmap, outcome_fmap in *;
  cbv beta iota in *.

Lemma yearly_sales_of_one_year (E : engine) (o : Orders.row) (os : list Orders.row) :
  (forall o', In o' os -> value_eqb (year_of E o') (year_of E o) = true) ->
  yearly_sales E (o :: os)
  = match sql_sum E (map Orders.amount (o :: os)) with
    | Returned total => Returned [(year_of E o, total)]
    | Raised e => Raised e
    end.
Proof.
  intros H. unfold yearly_sales. rewrite (group_by_one_key (year_of E) o os H).
  unfold sum_per_group. cbn [traverse fst snd].
  destruct (sql_sum E (map Orders.amount (o :: os))); reflexivity.
Qed.

(** C5 (as the code has it): on a database whose orders all fall in one
    year (there is at least one order, and the year of every order equals
    the year of the first), the growth query returns, whenever the SUM of
    the amounts returns, a single row for that year, whose previous-year
    value and growth rate are both NULL; it raises SQLite's integer overflow
    when that SUM overflows, and no other error; and the SUM returns
    whenever the sizes of the integer amounts add up within the 64-bit
    range, as they do when the amounts are REAL. *)
Theorem growth_of_a_single_year (E : engine) (d : gmap string table)
  (o : Orders.row) (os : list Orders.row) :
  orders_of d = Returned (o :: os) ->
  (forall o', In o' os -> value_eqb (year_of E o') (year_of E o) = true) ->
  (forall total,
      sql_sum E (map Orders.amount (o :: os)) = Returned total ->
      yearly_growth_rate E d
      = Returned {| names := ["year"; "total_sales"; "previous_year_sales"; "growth_rate"];
                    tuples := [[year_of E o; total; VNull; VNull]] |}) /\
  (forall e, yearly_growth_rate E d = Raised e ->
             e = IntegerOverflow /\
             sql_sum E (map Orders.amount (o :: os)) = Raised IntegerOverflow) /\
  ((integer_weight E (map Orders.amount (o :: os)) <= max_int64)%Z ->
   exists total, sql_sum E (map Orders.amount (o :: os)) = Returned total).
Proof.
  intros Hd Hyear. unfold yearly_growth_rate. rewrite Hd. outcome_unfold.
  rewrite (yearly_sales_of_one_year E o os Hyear).
  split; [| split].
  - intros total Ht. rewrite Ht.
    cbn [map fst snd sort_by fold_right insert_sorted lag lag_from growth_row].
    unfold growth_row, sql_sub, sql_mul. cbn [fst snd]. rewrite arith_null_r. reflexivity.
  - intros e He.
    destruct (sql_sum E (map Orders.amount (o :: os))) as [v | e'] eqn:Hs;
      [discriminate He |].
    injection He as <-. pose proof (sql_sum_raises E _ _ Hs) as ->. tauto.
  - apply sql_sum_returns.
Qed.

Lemma growth_of_a_single_year_witness :
  orders_of one_year_database = Returned [order_a; order_b] /\
  sql_sum plain_engine (map Orders.amount [order_a; order_b]) = Returned (VReal 30) /\
  yearly_growth_rate plain_engine one_year_database
  = Returned {| names := ["year"; "total_sales"; "previous_year_sales"; "growth_rate"];
                tuples := [[VText "2017"; VReal 30; VNull; VNull]] |}.
Proof.
  split; [reflexivity |]. split; [reflexivity |].
  refine (proj1 (growth_of_a_single_year plain_engine one_year_database order_a [order_b]
                   _ _) (VReal 30) _).
  - reflexivity.
  - intros o' [<- | []]. reflexivity.
  - reflexivity.
Defined.

(** C5 as stated fails: the two orders of the file [big_amounts_frame] fall
    in 2017, their whole amounts are the largest 64-bit integer and 1, and
    on the database the loader leaves the growth query returns no row: it
    raises SQLite's integer overflow. *)
Lemma growth_of_a_year_that_overflows :
  fst (load_csv_to_table "orders.csv" "orders" big_amounts_world) = Returned tt /\
  orders_of big_amounts_database
  = Returned [big_order 1 "2017-01-05" 9223372036854775807; big_order 2 "2017-06-01" 1] /\
  map (year_of plain_engine)
      [big_order 1 "2017-01-05" 9223372036854775807; big_order 2 "2017-06-01" 1]
  = [VText "2017"; VText "2017"] /\
  yearly_growth_rate plain_engine big_amounts_database = Raised IntegerOverflow.
Proof. repeat split; vm_compute; reflexivity. Qed.

(** ** Sums over groups *)

Local Open Scope Q_scope.




(** ** Percentages of the total revenue *)

Lemma join_In {A B} (l : list A) (r : list B) (on : A -> B -> option bool) (a : A) (b : B) :
  In (a, b) (join l r on) -> In a l /\ In b r.
Proof.
  unfold join. rewrite in_flat_map. intros (a' & Ha & H).
  apply in_map_iff in H. destruct H as (b' & Heq & Hb).
  apply filter_In in Hb. inversion Heq; subst. tauto.
Qed.





(** The amounts of the joined rows are amounts of orders. *)
Lemma joined_amounts_In (os : list Orders.row) (ops : list OrderProducts.row)
  (ps : list Products.row) (P : value -> Prop) :
  (forall o, In o os -> P (Orders.amount o)) ->
  forall j, In j (category_join os ops ps) -> P (Orders.amount (fst (fst j))).
Proof.
  intros H [[o op] p] Hj. unfold category_join in Hj.
  apply join_In in Hj. destruct Hj as [Hj _]. apply join_In in Hj.
  apply H. tauto.
Qed.




Local Close Scope Q_scope.

(** ** The top three customers of a year *)

Lemma insert_sorted_length {A} (le : A -> A -> bool) (a : A) (l : list A) :
  length (insert_sorted le a l) = S (length l).
Proof.
  induction l as [| b l IH]; simpl; [reflexivity |].
  destruct (le a b); simpl; [reflexivity | rewrite IH; reflexivity].
Qed.

Lemma sort_by_length {A} (le : A -> A -> bool) (l : list A) :
  length (sort_by le l) = length l.
Proof.
  unfold sort_by. induction l as [| a l IH]; simpl; [reflexivity |].
  rewrite insert_sorted_length, IH. reflexivity.
Qed.

Lemma insert_sorted_In {A} (le : A -> A -> bool) (a x : A) (l : list A) :
  In x (insert_sorted le a l) -> x = a \/ In x l.
Proof.
  induction l as [| b l IH]; simpl; [intuition congruence |].
  destruct (le a b); simpl; [intuition congruence |].
  intros [<- | H]; [tauto |]. apply IH in H. tauto.
Qed.

Lemma sort_by_In {A} (le : A -> A -> bool) (x : A) (l : list A) :
  In x (sort_by le l) -> In x l.
Proof.
  unfold sort_by. induction l as [| a l IH]; simpl; [tauto |].
  intros H. apply insert_sorted_In in H. destruct H as [-> | H]; [tauto |].
  right. apply IH. exact H.
Qed.

Lemma Qcompare_inject_Z (a b : Z) : Qcompare (inject_Z a) (inject_Z b) = Z.compare a b.
Proof. unfold Qcompare. simpl. rewrite !Z.mul_1_r. reflexivity. Qed.

Lemma rank_le_3 (i : nat) : holds (sql_le (VInt (Z.of_nat i)) (VInt 3)) = (i <=? 3).
Proof.
  unfold sql_le, sql_cmp, holds, value_compare. cbn [value_Q].
  rewrite Qcompare_inject_Z.
  destruct (Z.compare_spec (Z.of_nat i) 3) as [H | H | H];
    destruct (Nat.leb_spec i 3); try reflexivity; lia.
Qed.

Lemma ranked_from_length {A} (l : list A) (s : nat) :
  length (List.filter (fun r : A * value => holds (sql_le (snd r) (VInt 3)))
            (combine l (map (fun i => VInt (Z.of_nat i)) (seq s (length l)))))
  = Nat.min (length l) (4 - s).
Proof.
  revert s. induction l as [| a l IH]; intros s; [reflexivity |].
  cbn [length seq map combine List.filter snd].
  rewrite rank_le_3. destruct (Nat.leb_spec s 3); cbn [length]; rewrite IH; lia.
Qed.

(** Keeping the ranks up to 3 keeps the first three rows. *)
Lemma row_number_top3 {A} (l : list A) :
  length (List.filter (fun r : A * value => holds (sql_le (snd r) (VInt 3))) (row_number l))
  = Nat.min 3 (length l).
Proof. unfold row_number. rewrite ranked_from_length. lia. Qed.

Lemma row_number_In {A} (l : list A) (a : A) (rank : value) :
  In (a, rank) (row_number l) -> In a l.
Proof. unfold row_number. apply in_combine_l. Qed.

Lemma filter_flat_map {A B} (P : B -> bool) (F : A -> list B) (l : list A) :
  List.filter P (flat_map F l) = flat_map (fun a => List.filter P (F a)) l.
Proof.
  induction l as [| a l IH]; simpl; [reflexivity |].
  rewrite List.filter_app, IH. reflexivity.
Qed.

Lemma flat_map_length_nsum {A B} (F : A -> list B) (l : list A) :
  length (flat_map F l) = nsum (map (fun a => length (F a)) l).
Proof.
  induction l as [| a l IH]; simpl; [reflexivity |].
  rewrite length_app, IH. reflexivity.
Qed.

Lemma filter_map_swap {A B} (P : B -> bool) (f : A -> B) (l : list A) :
  List.filter P (map f l) = map f (List.filter (fun a => P (f a)) l).
Proof.
  induction l as [| a l IH]; simpl; [reflexivity |].
  destruct (P (f a)); simpl; rewrite IH; reflexivity.
Qed.

Lemma filter_all {A} (P : A -> bool) (l : list A) :
  (forall a, In a l -> P a = true) -> List.filter P l = l.
Proof.
  induction l as [| a l IH]; intros H; simpl; [reflexivity |].
  rewrite (H a) by (left; reflexivity). f_equal. apply IH.
  intros b Hb. apply H. right. exact Hb.
Qed.

Lemma filter_none {A} (P : A -> bool) (l : list A) :
  (forall a, In a l -> P a = false) -> List.filter P l = [].
Proof.
  induction l as [| a l IH]; intros H; simpl; [reflexivity |].
  rewrite (H a) by (left; reflexivity). apply IH.
  intros b Hb. apply H. right. exact Hb.
Qed.

Lemma existsb_map_agree {A K1 K2} (eqb1 : K1 -> K1 -> bool) (eqb2 : K2 -> K2 -> bool)
  (f : A -> K1) (g : A -> K2) (a : A) (l : list A) :
  (forall b, In b l -> eqb1 (f a) (f b) = eqb2 (g a) (g b)) ->
  existsb (eqb1 (f a)) (map f l) = existsb (eqb2 (g a)) (map g l).
Proof.
  induction l as [| b l IH]; intros H; simpl; [reflexivity |].
  rewrite (H b) by (left; reflexivity). rewrite IH; [reflexivity |].
  intros c Hc. apply H. right. exact Hc.
Qed.

(** Two lists of keys that are equal at the same places have as many
    distinct keys. *)
Lemma distinct_from_map_length {A K1 K2} (eqb1 : K1 -> K1 -> bool) (eqb2 : K2 -> K2 -> bool)
  (f : A -> K1) (g : A -> K2) (seen l : list A) :
  (forall a b, In a (seen ++ l) -> In b (seen ++ l) -> eqb1 (f a) (f b) = eqb2 (g a) (g b)) ->
  length (distinct_from eqb1 (map f seen) (map f l))
  = length (distinct_from eqb2 (map g seen) (map g l)).
Proof.
  revert seen. induction l as [| a l IH]; intros seen H; simpl; [reflexivity |].
  rewrite (existsb_map_agree eqb1 eqb2 f g a seen).
  - destruct (existsb (eqb2 (g a)) (map g seen)).
    + apply IH. intros x y Hx Hy. apply H; apply in_app_iff; simpl;
        [apply in_app_iff in Hx | apply in_app_iff in Hy]; tauto.
    + simpl. f_equal. apply (IH (a :: seen)). intros x y Hx Hy.
      apply H; apply in_app_iff; simpl;
        [apply in_app_iff in Hx; simpl in Hx | apply in_app_iff in Hy; simpl in Hy]; tauto.
  - intros b Hb. apply H; apply in_app_iff; simpl; tauto.
Qed.

Lemma distinct_map_length {A K1 K2} (eqb1 : K1 -> K1 -> bool) (eqb2 : K2 -> K2 -> bool)
  (f : A -> K1) (g : A -> K2) (l : list A) :
  (forall a b, In a l -> In b l -> eqb1 (f a) (f b) = eqb2 (g a) (g b)) ->
  length (distinct eqb1 (map f l)) = length (distinct eqb2 (map g l)).
Proof. intros H. apply (distinct_from_map_length eqb1 eqb2 f g [] l). exact H. Qed.

Lemma value_eqb_congr (a b y : value) :
  value_eqb a b = true -> value_eqb a y = value_eqb b y.
Proof.
  intros H. destruct (value_eqb a y) eqn:Ha, (value_eqb b y) eqn:Hb; try reflexivity.
  - rewrite value_eqb_sym in H. rewrite (value_eqb_trans _ _ _ H Ha) in Hb. discriminate.
  - rewrite (value_eqb_trans _ _ _ H Hb) in Ha. discriminate.
Qed.

(** The rows of [yearly_spending], where its SUMs return. *)
Lemma yearly_spending_returned (E : engine) (os : list Orders.row)
  (spending : list (value * value * value)) :
  yearly_spending E os = Returned spending ->
  spending
  = map (fun g => (field 0 (fst g), field 1 (fst g),
                   sum_or_null E (map Orders.amount (snd g))))
        (group_by keys_eqb (fun o => [year_of E o; Orders.customer_id o]) os).
Proof.
  intros H. unfold yearly_spending in H. apply sum_per_group_returned in H.
  destruct H as [-> _]. reflexivity.
Qed.

(** The rows of [yearly_spending] of the year [y] are as many as the
    customers of that year. *)
Lemma yearly_spending_of_year (E : engine) (y : value) (os : list Orders.row)
  (spending : list (value * value * value)) :
  yearly_spending E os = Returned spending ->
  length (List.filter (fun s : value * value * value => value_eqb (fst (fst s)) y) spending)
  = length (customers_in_year E y os).
Proof.
  intros H. rewrite (yearly_spending_returned E os spending H).
  unfold group_by, customers_in_year.
  rewrite map_map. cbn [fst snd]. rewrite filter_map_swap, length_map. cbn [fst].
  rewrite (filter_distinct keys_eqb (fun k => value_eqb (field 0 k) y)).
  - rewrite filter_map_swap. cbn [field nth].
    apply distinct_map_length. intros a b Ha Hb.
    apply filter_In in Ha. apply filter_In in Hb. destruct Ha as [_ Ha], Hb as [_ Hb].
    cbn [keys_eqb]. rewrite andb_true_r.
    rewrite value_eqb_sym in Hb. rewrite (value_eqb_trans _ _ _ Ha Hb). reflexivity.
  - intros [| a0 a] [| b0 b]; cbn [keys_eqb field nth]; try discriminate; [reflexivity |].
    intros H0. apply andb_true_iff in H0. apply value_eqb_congr. tauto.
Qed.

(** The ranked rows of the year [y] that the query keeps. *)
Lemma ranked_spending_of_year (y : value) (ys : list (value * value * value)) :
  length (List.filter (fun r : value * value * value * value =>
                         value_eqb (fst (fst (fst r))) y)
            (List.filter (fun r => holds (sql_le (snd r) (VInt 3))) (ranked_spending ys)))
  = Nat.min 3 (length (List.filter (fun s : value * value * value =>
                                      value_eqb (fst (fst s)) y) ys)).
Proof.
  unfold ranked_spending. rewrite !filter_flat_map, flat_map_length_nsum.
  unfold group_by. rewrite map_map. cbn [snd].
  set (year3 := fun s : value * value * value => fst (fst s)).
  set (c := Nat.min 3 (length (List.filter (fun s => value_eqb (year3 s) y) ys))).
  rewrite (map_ext _ (fun k => if value_eqb k y then (fun _ => c) k else 0)).
  - rewrite (nsum_apart value_eqb value_eqb_sym value_eqb_trans)
      by apply distinct_apart.
    destruct (find (fun k => value_eqb k y) (distinct value_eqb (map year3 ys))) eqn:Hfind;
      [reflexivity |].
    unfold c. rewrite filter_none; [reflexivity |].
    intros s Hs. change (value_eqb (year3 s) y = false).
    destruct (value_eqb (year3 s) y) eqn:Hy; [| reflexivity].
    destruct (distinct_covers value_eqb value_eqb_refl value_eqb_sym value_eqb_trans
                (map year3 ys) (year3 s) (in_map year3 ys s Hs)) as (k & Hk & Hsk).
    pose proof (find_none _ _ Hfind k Hk) as Hky. cbv beta in Hky.
    rewrite value_eqb_sym in Hsk. rewrite (value_eqb_trans _ _ _ Hsk Hy) in Hky.
    discriminate.
  - intros k.
    assert (Hmember : forall r,
               In r (List.filter (fun r => holds (sql_le (snd r) (VInt 3)))
                       (row_number (sort_by (descending snd)
                          (List.filter (fun s => value_eqb (year3 s) k) ys)))) ->
               value_eqb (year3 (fst r)) k = true).
    { intros [s rank] Hr. apply filter_In in Hr. destruct Hr as [Hr _].
      apply row_number_In, sort_by_In, filter_In in Hr. tauto. }
    destruct (value_eqb k y) eqn:Hky.
    + rewrite filter_all.
      * rewrite row_number_top3, sort_by_length. unfold c. f_equal. f_equal.
        apply List.filter_ext. intros s. cbv beta.
        rewrite (value_eqb_sym _ k), (value_eqb_sym _ y).
        apply value_eqb_congr. exact Hky.
      * intros r Hr. apply Hmember in Hr. apply (value_eqb_trans _ _ _ Hr Hky).
    + rewrite filter_none; [reflexivity |].
      intros r Hr. apply Hmember in Hr.
      destruct (value_eqb (fst (fst (fst r))) y) eqn:Hry; [| reflexivity].
      rewrite value_eqb_sym in Hr. fold (year3 (fst r)) in Hry.
      rewrite (value_eqb_trans _ _ _ Hr Hry) in Hky. discriminate.
Qed.

(** Every ranked row is the year, the customer and a total of an order. *)
Lemma ranked_spending_In (E : engine) (os : list Orders.row)
  (spending : list (value * value * value)) (r : value * value * value * value) :
  yearly_spending E os = Returned spending ->
  In r (ranked_spending spending) ->
  exists o, In o os /\ fst (fst (fst r)) = year_of E o
            /\ snd (fst (fst r)) = Orders.customer_id o.
Proof.
  intros H. rewrite (yearly_spending_returned E os spending H).
  unfold ranked_spending. rewrite in_flat_map. intros (g & Hg & Hr).
  destruct r as [s rank]. apply row_number_In, sort_by_In in Hr.
  unfold group_by in Hg. apply in_map_iff in Hg. destruct Hg as (k & <- & _).
  cbn [snd] in Hr. apply filter_In in Hr. destruct Hr as [Hs _].
  unfold group_by in Hs. rewrite map_map in Hs.
  apply in_map_iff in Hs. destruct Hs as (k2 & <- & Hk2).
  apply distinct_In, in_map_iff in Hk2. destruct Hk2 as (o & <- & Ho).
  exists o. cbn. tauto.
Qed.

(** The top-3 query returns when [yearly_spending] does, and raises its
    error. *)
Lemma top_customers_outcome (E : engine) (d : gmap string table) (os : list Orders.row) :
  orders_of d = Returned os ->
  top_customers_per_year E d
  = match yearly_spending E os with
    | Returned spending =>
        Returned {| names := ["year"; "customer_id"; "total_spent"];
                    tuples :=
                      map (fun r => [fst (fst (fst r)); snd (fst (fst r)); snd (fst r)])
                          (List.filter (fun r => holds (sql_le (snd r) (VInt 3)))
                                       (ranked_spending spending)) |}
    | Raised e => Raised e
    end.
Proof. intros H. unfold top_customers_per_year. rewrite H. reflexivity. Qed.

(** C6 (as the code has it): on a database whose orders table has the
    declared columns, every result of the top-3 query has, for every year
    [y] in which fewer than three customers (up to equality, NULL counting as
    one) have an order, exactly as many rows for [y] as there are such
    customers, and every row of it is the year and the customer of some
    order, with a total; the query has a result whenever the sizes of the
    integer amounts add up within the 64-bit range, as they do when the
    amounts are REAL, and when it has none it has raised SQLite's integer
    overflow. *)
Theorem top_customers_of_a_short_year (E : engine) (d : gmap string table)
  (os : list Orders.row) :
  orders_of d = Returned os ->
  (forall r,
      top_customers_per_year E d = Returned r ->
      (forall y,
          length (customers_in_year E y os) < 3 ->
          length (rows_of_year y r) = length (customers_in_year E y os)) /\
      (forall row, In row (tuples r) ->
         exists o total,
           In o os /\ row = [year_of E o; Orders.customer_id o; total])) /\
  (forall e, top_customers_per_year E d = Raised e -> e = IntegerOverflow) /\
  ((integer_weight E (map Orders.amount os) <= max_int64)%Z ->
   exists r, top_customers_per_year E d = Returned r).
Proof.
  intros Hd. rewrite (top_customers_outcome E d os Hd). split; [| split].
  - intros r Hr. destruct (yearly_spending E os) as [spending | e] eqn:Hs;
      [| discriminate Hr].
    injection Hr as <-. split.
    + intros y Hfew. unfold rows_of_year. cbn [tuples].
      rewrite filter_map_swap, length_map. cbn [field nth].
      rewrite ranked_spending_of_year, (yearly_spending_of_year E y os spending Hs). lia.
    + cbn [tuples]. intros row Hrow. apply in_map_iff in Hrow.
      destruct Hrow as (r & <- & Hr). apply filter_In in Hr. destruct Hr as [Hr _].
      apply (ranked_spending_In E os spending r Hs) in Hr.
      destruct Hr as (o & Ho & Hy & Hc).
      exists o, (snd (fst r)). rewrite Hy, Hc. tauto.
  - intros e He. destruct (yearly_spending E os) as [spending | e'] eqn:Hs;
      [discriminate He |].
    injection He as <-. apply (sum_per_group_raises E _ _ _ _ Hs).
  - intros Hw. unfold yearly_spending.
    destruct (group_sums_return E keys_eqb
                (fun o : Orders.row => [year_of E o; Orders.customer_id o])
                (fun g => (field 0 (fst g), field 1 (fst g)))
                Orders.amount os Hw) as (rs & ->).
    eexists. reflexivity.
Qed.

Lemma top_customers_of_a_short_year_witness :
  orders_of one_year_database = Returned [order_a; order_b] /\
  length (customers_in_year plain_engine (VText "2017") [order_a; order_b]) < 3 /\
  exists r,
    top_customers_per_year plain_engine one_year_database = Returned r /\
    length (rows_of_year (VText "2017") r) = 2 /\
    (forall row, In row (tuples r) ->
       exists o total,
         In o [order_a; order_b] /\
         row = [year_of plain_engine o; Orders.customer_id o; total]).
Proof.
  split; [reflexivity |]. split; [vm_compute; lia |].
  destruct (top_customers_of_a_short_year plain_engine one_year_database
              [order_a; order_b]) as (Hres & _ & Hret); [reflexivity |].
  destruct Hret as (r & Hr); [apply Z.leb_le; reflexivity |].
  destruct (Hres r Hr) as (Hcount & Hrows).
  exists r. split; [exact Hr |]. split; [| exact Hrows].
  rewrite (Hcount (VText "2017")); [reflexivity | vm_compute; lia].
Defined.

(** C6 as stated fails: in the file [big_amounts_frame] one customer has two
    orders in 2017, of the largest 64-bit integer and of 1; on the database
    the loader leaves the top-3 query returns no row for 2017: it raises
    SQLite's integer overflow. *)
Lemma top_customers_of_a_year_that_overflows :
  fst (load_csv_to_table "orders.csv" "orders" big_amounts_world) = Returned tt /\
  orders_of big_amounts_database
  = Returned [big_order 1 "2017-01-05" 9223372036854775807; big_order 2 "2017-06-01" 1] /\
  length (customers_in_year plain_engine (VText "2017")
            [big_order 1 "2017-01-05" 9223372036854775807; big_order 2 "2017-06-01" 1])
  = 1 /\
  top_customers_per_year plain_engine big_amounts_database = Raised IntegerOverflow.
Proof. repeat split; vm_compute; reflexivity. Qed.

(** ** References between the tables *)

(** C4 at a failing input: [create_tables] declares the foreign key of
    orders, yet after [main] has run on files whose order refers to a
    customer that is in no file, the orders table has lost the declaration
    and holds the order of the missing customer; likewise the order line
    refers to a missing order and a missing product.  ([main] itself ends
    with the syntax error of intermediate query 4, as on every input; the
    loads have happened before.) *)
Theorem main_keeps_an_order_without_customer :
  foreign_keys <$> (database (snd (create_tables orphan_world)) !! "orders")
  = Some [references "customer_id" "customers" "customer_id"] /\
  fst (main plain_engine orphan_world) = Raised SyntaxError /\
  foreign_keys <$> (database (snd (main plain_engine orphan_world)) !! "orders") = Some [] /\
  customers_of (database (snd (main plain_engine orphan_world))) = Returned [customer_ann] /\
  orders_of (database (snd (main plain_engine orphan_world)))
  = Returned [order_of_customer_7] /\
  order_products_of (database (snd (main plain_engine orphan_world)))
  = Returned [link 9 9] /\
  products_of (database (snd (main plain_engine orphan_world))) = Returned [product_a] /\
  orphans (map Orders.customer_id [order_of_customer_7])
          (map Customers.customer_id [customer_ann]) = [VInt 7] /\
  orphans (map OrderProducts.order_id [link 9 9])
          (map Orders.order_id [order_of_customer_7]) = [VInt 9] /\
  orphans (map OrderProducts.product_id [link 9 9])
          (map Products.product_id [product_a]) = [VInt 9].
Proof.
  repeat split; vm_compute; reflexivity.
Qed.

(** * Further properties of the scripts *)

(** ** The loaders: errors and frame *)

(** X1: a loader given a file that is not there raises [FileNotFound] for
    that path and leaves the world, the target table included, exactly as
    it was: the file is read before anything is dropped. *)
Theorem loaders_missing_file (file_path table_name : string) (w : world) :
  files w !! file_path = None ->
  load_csv_to_table file_path table_name w = (Raised (FileNotFound file_path), w) /\
  process_csv file_path table_name w = (Raised (FileNotFound file_path), w).
Proof.
  intros H. rewrite load_csv_to_table_spec, process_csv_spec, H. split; reflexivity.
Qed.

Lemma loaders_missing_file_witness :
  files fresh_world_with_orders !! "orders.csv" = None /\
  load_csv_to_table "orders.csv" "orders" fresh_world_with_orders
  = (Raised (FileNotFound "orders.csv"), fresh_world_with_orders) /\
  process_csv "orders.csv" "orders" fresh_world_with_orders
  = (Raised (FileNotFound "orders.csv"), fresh_world_with_orders).
Proof.
  split; [reflexivity |].
  apply (loaders_missing_file "orders.csv" "orders" fresh_world_with_orders).
  reflexivity.
Defined.

(** X2: whatever its outcome, a load touches no table but its target, no
    file, and prints nothing. *)
Theorem loaders_touch_one_table (file_path table_name other : string) (w : world) :
  other <> table_name ->
  (database (snd (load_csv_to_table file_path table_name w)) !! other = database w !! other /\
   files (snd (load_csv_to_table file_path table_name w)) = files w /\
   stdout (snd (load_csv_to_table file_path table_name w)) = stdout w) /\
  (database (snd (process_csv file_path table_name w)) !! other = database w !! other /\
   files (snd (process_csv file_path table_name w)) = files w /\
   stdout (snd (process_csv file_path table_name w)) = stdout w).
Proof.
  intros Hne. rewrite load_csv_to_table_spec, process_csv_spec.
  destruct (files w !! file_path) as [[df | |] |]; try (repeat split; reflexivity).
  split.
  - split; [apply to_sql_other_table; exact Hne |].
    split; [apply to_sql_files | apply to_sql_stdout].
  - split; [apply to_sql_other_table; exact Hne |].
    split; [apply to_sql_files | apply to_sql_stdout].
Qed.

Lemma loaders_touch_one_table_witness :
  "customers" <> "orders" /\
  database (snd (load_csv_to_table "orders.csv" "orders" orphan_schema_world)) !! "customers"
  = database orphan_schema_world !! "customers".
Proof.
  assert (H : "customers" <> "orders") by discriminate.
  split; [exact H |].
  exact (proj1 (proj1 (loaders_touch_one_table "orders.csv" "orders" "customers"
                         orphan_schema_world H))).
Defined.

Lemma frame_table_keyless (df : DataFrame) : keyless (frame_table df).
Proof.
  split; [reflexivity |]. simpl. apply List.Forall_forall. intros c Hc.
  apply in_map_iff in Hc. destruct Hc as (x & <- & _). reflexivity.
Qed.

(** X3: a load that returns leaves its target without any key, whatever
    keys the table had before: the primary key and the foreign keys that
    [create_tables] declares do not survive the load. *)
Theorem loaded_table_is_keyless (file_path table_name : string) (w : world) :
  fst (load_csv_to_table file_path table_name w) = Returned tt ->
  exists t,
    database (snd (load_csv_to_table file_path table_name w)) !! table_name = Some t /\
    keyless t.
Proof.
  rewrite load_csv_to_table_spec.
  destruct (files w !! file_path) as [[df | |] |]; try discriminate.
  rewrite to_sql_spec.
  destruct (has_duplicates (map fst (df_columns df))); [discriminate |].
  destruct (fits df); [| discriminate].
  intros _. exists (frame_table df). simpl. rewrite lookup_insert_eq.
  split; [reflexivity | apply frame_table_keyless].
Qed.

Lemma loaded_table_is_keyless_witness :
  foreign_keys <$> (database orphan_schema_world !! "orders")
  = Some [references "customer_id" "customers" "customer_id"] /\
  exists t,
    database (snd (load_csv_to_table "orders.csv" "orders" orphan_schema_world)) !! "orders"
    = Some t /\ keyless t.
Proof.
  split; [reflexivity |].
  apply (loaded_table_is_keyless "orders.csv" "orders" orphan_schema_world).
  reflexivity.
Defined.

(** ** The load loop of [main] *)



Lemma ensure_files (name : string) (cols : list column) (fks : list foreign_key)
  (w : world) :
  files (ensure name cols fks w) = files w /\ stdout (ensure name cols fks w) = stdout w.
Proof. unfold ensure. destruct (database w !! name); split; reflexivity. Qed.

Lemma create_tables_files (w : world) :
  files (snd (create_tables w)) = files w /\ stdout (snd (create_tables w)) = stdout w.
Proof.
  rewrite create_tables_spec. cbn [snd].
  repeat match goal with
         | |- context [ensure ?n ?c ?f ?x] =>
             let H1 := fresh in let H2 := fresh in
             destruct (ensure_files n c f x) as [H1 H2]; rewrite H1, H2; clear H1 H2
         end.
  split; reflexivity.
Qed.





Lemma load_csv_to_table_outcome (file_path table_name : string) (w : world) :
  files (snd (load_csv_to_table file_path table_name w)) = files w /\
  stdout (snd (load_csv_to_table file_path table_name w)) = stdout w /\
  (files w !! file_path = None ->
   fst (load_csv_to_table file_path table_name w) = Raised (FileNotFound file_path)).
Proof.
  rewrite load_csv_to_table_spec.
  destruct (files w !! file_path) as [[df | |] |];
    try (repeat split; try reflexivity; discriminate).
  split; [apply to_sql_files |]. split; [apply to_sql_stdout | discriminate].
Qed.

Lemma for_each_load_fails (l : list (string * string)) (w : world) :
  (exists ft, In ft l /\ files w !! fst ft = None) ->
  exists e w',
    for_each l (fun ft => load_csv_to_table (fst ft) (snd ft)) w = (Raised e, w') /\
    stdout w' = stdout w.
Proof.
  revert w. induction l as [| ft0 l IH]; intros w (ft & Hin & Hnone); [destruct Hin |].
  cbn [for_each]. unfold mbind, run_bind.
  destruct (load_csv_to_table_outcome (fst ft0) (snd ft0) w) as (Hf & Ho & Hmiss).
  destruct (load_csv_to_table (fst ft0) (snd ft0) w) as [[[] | e] w1] eqn:Hload;
    simpl in *.
  - destruct Hin as [-> | Hin]; [specialize (Hmiss Hnone); discriminate |].
    destruct (IH w1) as (e & w' & Hrun & Hout).
    + exists ft. rewrite Hf. tauto.
    + exists e, w'. rewrite Hrun, Hout, Ho. tauto.
  - exists e, w1. split; [reflexivity | exact Ho].
Qed.

(** X5: when one of the five files is missing, [main] raises and prints
    nothing: no label and no result reaches the output, because every load
    comes before the first query. *)
Theorem main_stops_at_a_failed_load (E : engine) (w : world) :
  (exists ft, In ft files_and_tables /\ files w !! fst ft = None) ->
  exists e w',
    main E w = (Raised e, w') /\ stdout w' = stdout w.
Proof.
  intros (ft & Hin & Hnone). unfold main.
  destruct (create_tables_files w) as [Hcf Hco].
  pose proof (create_tables_spec w) as Hc.
  destruct (create_tables w) as [o w0] eqn:Hcw. simpl in Hcf, Hco.
  injection Hc as -> _.
  destruct (for_each_load_fails files_and_tables w0) as (e & w' & Hrun & Hout).
  { exists ft. rewrite Hcf. tauto. }
  exists e, w'. unfold mbind at 1, run_bind. rewrite Hcw.
  unfold mbind at 1, run_bind. rewrite Hrun.
  split; [reflexivity | congruence].
Qed.

Lemma main_stops_at_a_failed_load_witness :
  main plain_engine spaced_world
  = (Raised (FileNotFound "customers.csv"), snd (create_tables spaced_world)) /\
  exists e w',
    main plain_engine spaced_world = (Raised e, w') /\
    stdout w' = stdout spaced_world.
Proof.
  split; [vm_compute; reflexivity |].
  apply (main_stops_at_a_failed_load plain_engine spaced_world).
  exists ("customers.csv", "customers"). split; [left; reflexivity | reflexivity].
Defined.

(** ** The schema initializer and the tables already there *)

Lemma ensure_keeps (name other : string) (cols : list column) (fks : list foreign_key)
  (w : world) (t : table) :
  database w !! other = Some t -> database (ensure name cols fks w) !! other = Some t.
Proof.
  intros H. unfold ensure. destruct (database w !! name) eqn:Hn; [exact H |].
  simpl. rewrite lookup_insert_ne; [exact H | congruence].
Qed.

Lemma ensure_other (name other : string) (cols : list column) (fks : list foreign_key)
  (w : world) :
  other <> name -> database (ensure name cols fks w) !! other = database w !! other.
Proof.
  intros H. unfold ensure. destruct (database w !! name); [reflexivity |].
  simpl. apply lookup_insert_ne. congruence.
Qed.

Lemma ensure_new (name : string) (cols : list column) (fks : list foreign_key)
  (w : world) :
  database w !! name = None ->
  database (ensure name cols fks w) !! name
  = Some {| columns := cols; foreign_keys := fks; rows := [] |}.
Proof. intros H. unfold ensure. rewrite H. simpl. apply lookup_insert_eq. Qed.

(** X6: [create_tables] keeps every table that is already there as it is,
    rows and keys included, creates each of its five tables that is missing
    without rows, and touches no table of another name. *)
Theorem create_tables_keeps_tables (w : world) :
  (forall n t, database w !! n = Some t ->
               database (snd (create_tables w)) !! n = Some t) /\
  (forall n, In n schema_tables -> database w !! n = None ->
             exists t, database (snd (create_tables w)) !! n = Some t /\ rows t = []) /\
  (forall n, ~ In n schema_tables ->
             database (snd (create_tables w)) !! n = database w !! n).
Proof.
  rewrite create_tables_spec. cbn [snd]. split; [| split].
  - intros n t H. repeat apply ensure_keeps. exact H.
  - intros n Hin Hnone. unfold schema_tables in Hin. simpl in Hin.
    destruct Hin as [<- | [<- | [<- | [<- | [<- | []]]]]].
    all: eexists; split;
      [ repeat first
          [ solve [ apply ensure_new; rewrite ?ensure_other by discriminate; exact Hnone ]
          | apply ensure_keeps ]
      | reflexivity ].
  - intros n Hn. unfold schema_tables in Hn. simpl in Hn.
    rewrite !ensure_other by (intros ->; tauto). reflexivity.
Qed.

Lemma create_tables_keeps_tables_witness :
  database (snd (create_tables fresh_world_with_orders)) !! "orders"
  = database fresh_world_with_orders !! "orders" /\
  exists t,
    database (snd (create_tables fresh_world_with_orders)) !! "customers" = Some t /\
    rows t = [].
Proof.
  destruct (create_tables_keeps_tables fresh_world_with_orders) as (Hkeep & Hnew & _).
  split.
  - apply Hkeep. reflexivity.
  - apply Hnew; [left; reflexivity | reflexivity].
Defined.

(** ** Cleaning a column name *)

Lemma clean_char (c : ascii) :
  (if Ascii.eqb (if Ascii.eqb (if Ascii.eqb c " " then "_" else c) "-" then "_"
                 else if Ascii.eqb c " " then "_" else c) "." then "_"
   else if Ascii.eqb (if Ascii.eqb c " " then "_" else c) "-" then "_"
        else if Ascii.eqb c " " then "_" else c)%char
  = (if unsafe c then "_" else c)%char.
Proof.
  unfold unsafe.
  destruct (Ascii.eqb c " ") eqn:H1; [reflexivity |].
  destruct (Ascii.eqb c "-") eqn:H2; [reflexivity |].
  destruct (Ascii.eqb c ".") eqn:H3; reflexivity.
Qed.

Lemma clean_column_cons (c : ascii) (s : string) :
  clean_column (String c s) = String (if unsafe c then "_"%char else c) (clean_column s).
Proof. unfold clean_column. simpl. rewrite clean_char. reflexivity. Qed.

(** X7: cleaning a column name changes nothing but the spaces, dashes and
    dots: it keeps the length, leaves a name without these characters as it
    is, and cleaning a cleaned name changes nothing more. *)
Theorem clean_column_properties (s : string) :
  clean_column (clean_column s) = clean_column s /\
  String.length (clean_column s) = String.length s /\
  (has_unsafe s = false -> clean_column s = s).
Proof.
  induction s as [| c s (IH1 & IH2 & IH3)]; [repeat split |].
  rewrite clean_column_cons. split; [| split].
  - rewrite clean_column_cons, IH1. f_equal.
    destruct (unsafe c) eqn:Hc; [reflexivity | rewrite Hc; reflexivity].
  - simpl. rewrite IH2. reflexivity.
  - simpl. intros H. apply orb_false_iff in H. destruct H as [Hc Hs].
    rewrite Hc, (IH3 Hs). reflexivity.
Qed.

Lemma clean_column_properties_witness :
  has_unsafe "order_id" = false /\ clean_column "order_id" = "order_id".
Proof.
  split; [reflexivity |].
  apply (proj2 (proj2 (clean_column_properties "order_id"))). reflexivity.
Defined.

(** ** Counting queries *)

Lemma group_nonempty {A} (key : A -> value) (l : list A) (g : value * list A) :
  In g (group_by value_eqb key l) -> 1 <= length (snd g).
Proof.
  unfold group_by. intros H. apply in_map_iff in H. destruct H as (k & <- & Hk).
  apply distinct_In, in_map_iff in Hk. destruct Hk as (a & <- & Ha). cbn [snd].
  induction l as [| b l IH]; [destruct Ha |]. cbn [List.filter].
  destruct Ha as [-> | Ha].
  - rewrite value_eqb_refl. simpl. lia.
  - destruct (value_eqb (key b) (key a)); [simpl; lia | apply IH; exact Ha].
Qed.

Local Open Scope Q_scope.

Lemma qsum_ones {A} (l : list A) :
  qsum (map (fun _ => 1) l) == inject_Z (Z.of_nat (length l)).
Proof.
  induction l as [| a l IH]; [reflexivity |].
  cbn [map length]. unfold qsum in *. cbn [fold_right]. rewrite IH.
  rewrite Nat2Z.inj_succ, <- Z.add_1_l, inject_Z_plus. reflexivity.
Qed.

(** The rows [key, COUNT( * )] of a GROUP BY: the counts add up to the
    number of rows grouped, no key comes twice, no count is zero and every
    grouped row finds its key. *)
Lemma count_rows_spec {A} (key : A -> value) (l : list A) :
  let rows := map (fun g : value * list A => [fst g; count_star (snd g)])
                  (group_by value_eqb key l) in
  qsum (map (fun row => value_Q (field 1 row)) rows) == inject_Z (Z.of_nat (length l)) /\
  apart value_eqb (map (field 0) rows) /\
  (forall row, In row rows -> positive_count (field 1 row)) /\
  (forall a, In a l -> exists row, In row rows /\ value_eqb (key a) (field 0 row) = true).
Proof.
  cbv zeta. rewrite !map_map. cbn [field nth]. split; [| split; [| split]].
  - rewrite <- qsum_ones.
    rewrite <- (qsum_groups value_eqb key (fun _ => 1)
                  value_eqb_refl value_eqb_sym value_eqb_trans l).
    apply qsum_ext. intros g _. unfold count_star, value_Q.
    rewrite qsum_ones. reflexivity.
  - unfold group_by. rewrite map_map. cbn [fst]. rewrite map_id.
    apply distinct_apart.
  - intros row Hrow. apply in_map_iff in Hrow. destruct Hrow as (g & <- & Hg).
    cbn [field nth]. exists (length (snd g)). split; [reflexivity |].
    apply (group_nonempty key l g Hg).
  - intros a Ha.
    destruct (distinct_covers value_eqb value_eqb_refl value_eqb_sym value_eqb_trans
                (map key l) (key a) (in_map key l a Ha)) as (k & Hk & Hak).
    exists [k; count_star (List.filter (fun b => value_eqb (key b) k) l)].
    split; [| exact Hak].
    apply in_map_iff. exists (k, List.filter (fun b => value_eqb (key b) k) l).
    split; [reflexivity |]. unfold group_by. apply in_map_iff. exists k. tauto.
Qed.

(** X8: the customers-per-state query returns one row per state (NULL
    being a state of its own), no state twice; its counts are at least 1 and
    add up to the number of customers. *)
Theorem customers_by_state_counts (d : gmap string table) (cs : list Customers.row) :
  customers_of d = Returned cs ->
  exists r,
    customers_by_state d = Returned r /\
    second_column_total r == inject_Z (Z.of_nat (length cs)) /\
    apart value_eqb (first_column r) /\
    (forall row, In row (tuples r) -> positive_count (field 1 row)) /\
    (forall c, In c cs ->
       exists s, In s (first_column r) /\ value_eqb (Customers.state c) s = true).
Proof.
  intros H. unfold customers_by_state. rewrite H. eexists. split; [reflexivity |].
  unfold second_column_total, first_column. cbn [tuples].
  destruct (count_rows_spec Customers.state cs) as (H1 & H2 & H3 & H4).
  split; [exact H1 |]. split; [exact H2 |]. split; [exact H3 |].
  intros c Hc. destruct (H4 c Hc) as (row & Hrow & Hs).
  exists (field 0 row). split; [apply in_map; exact Hrow | exact Hs].
Qed.

Lemma customers_by_state_counts_witness :
  customers_of three_customers_database = Returned [customer_ann; customer_bob; customer_cyd] /\
  exists r,
    customers_by_state three_customers_database = Returned r /\
    second_column_total r == 3.
Proof.
  split; [reflexivity |].
  destruct (customers_by_state_counts three_customers_database
              [customer_ann; customer_bob; customer_cyd]) as (r & Hr & Hsum & _);
    [reflexivity |].
  exists r. split; [exact Hr | exact Hsum].
Defined.

(** X9: the orders-per-month query of 2018 returns one row per month in
    which an order of 2018 falls, no month twice and no month with a count of
    zero, and its counts add up to the number of orders of 2018, the number
    the count query of 2017 computes for its own year. *)
Theorem orders_per_month_2018_counts (E : engine) (d : gmap string table)
  (os : list Orders.row) :
  orders_of d = Returned os ->
  orders_2017 E d
  = Returned {| names := ["order_count"];
                tuples := [[count_star (orders_of_year E "2017" os)]] |} /\
  exists r,
    orders_per_month_2018 E d = Returned r /\
    second_column_total r == inject_Z (Z.of_nat (length (orders_of_year E "2018" os))) /\
    apart value_eqb (first_column r) /\
    (forall row, In row (tuples r) -> positive_count (field 1 row)).
Proof.
  intros H. unfold orders_2017, orders_per_month_2018. rewrite H.
  split; [reflexivity |]. eexists. split; [reflexivity |].
  unfold second_column_total, first_column. cbn [tuples].
  destruct (count_rows_spec (month_of E) (orders_of_year E "2018" os)) as (H1 & H2 & H3 & _).
  split; [exact H1 |]. split; [exact H2 | exact H3].
Qed.

Lemma orders_per_month_2018_counts_witness :
  orders_of orders_2018_database
  = Returned [order_on 1 1 "2017-12-30" 10; order_on 2 2 "2018-01-02" 20;
              order_on 3 1 "2018-03-09" 5; order_on 4 3 "2018-01-20" 7] /\
  orders_2017 plain_engine orders_2018_database
  = Returned {| names := ["order_count"]; tuples := [[VInt 1]] |} /\
  orders_per_month_2018 plain_engine orders_2018_database
  = Returned {| names := ["month"; "order_count"];
                tuples := [[VText "01"; VInt 2]; [VText "03"; VInt 1]] |} /\
  exists r,
    orders_per_month_2018 plain_engine orders_2018_database = Returned r /\
    second_column_total r == 3 /\
    apart value_eqb (first_column r).
Proof.
  split; [reflexivity |].
  destruct (orders_per_month_2018_counts plain_engine orders_2018_database
              [order_on 1 1 "2017-12-30" 10; order_on 2 2 "2018-01-02" 20;
               order_on 3 1 "2018-03-09" 5; order_on 4 3 "2018-01-20" 7])
    as (H17 & r & Hr & Hsum & Hap & _); [reflexivity |].
  split; [exact H17 |]. split; [vm_compute; reflexivity |].
  exists r. split; [exact Hr |]. split; [exact Hsum | exact Hap].
Defined.

(** X10: the unique-cities query returns every city of a customer once: no
    two rows hold equal cities, every row is the city of a customer and
    every customer's city is in a row (NULL being a city of its own). *)
Theorem unique_cities_distinct (d : gmap string table) (cs : list Customers.row) :
  customers_of d = Returned cs ->
  exists r,
    unique_cities d = Returned r /\
    apart value_eqb (first_column r) /\
    (forall v, In v (first_column r) -> exists c, In c cs /\ Customers.city c = v) /\
    (forall c, In c cs ->
       exists v, In v (first_column r) /\ value_eqb (Customers.city c) v = true).
Proof.
  intros H. unfold unique_cities. rewrite H. eexists. split; [reflexivity |].
  unfold first_column. cbn [tuples]. rewrite map_map. cbn [field nth]. rewrite map_id.
  split; [apply distinct_apart |]. split.
  - intros v Hv. apply distinct_In, in_map_iff in Hv. destruct Hv as (c & Hc & Hin).
    exists c. tauto.
  - intros c Hc.
    apply (distinct_covers value_eqb value_eqb_refl value_eqb_sym value_eqb_trans).
    apply in_map. exact Hc.
Qed.

Lemma unique_cities_distinct_witness :
  customers_of three_customers_database = Returned [customer_ann; customer_bob; customer_cyd] /\
  unique_cities three_customers_database
  = Returned {| names := ["city"]; tuples := [[VText "NY"]; [VText "LA"]] |} /\
  exists r,
    unique_cities three_customers_database = Returned r /\
    apart value_eqb (first_column r).
Proof.
  split; [reflexivity |]. split; [reflexivity |].
  destruct (unique_cities_distinct three_customers_database
              [customer_ann; customer_bob; customer_cyd]) as (r & Hr & Hap & _);
    [reflexivity |].
  exists r. split; [exact Hr | exact Hap].
Defined.

(** ** The percentage of installments *)

Local Close Scope Q_scope.

(** A table the queries read has at most 2^63 - 1 rows. *)
Lemma scan_length (name : string) (wanted : list string) (d : gmap string table)
  (rs : list (list value)) :
  scan name wanted d = Returned rs -> (Z.of_nat (length rs) <= max_int64)%Z.
Proof.
  unfold scan. destruct (d !! name) as [t |]; [| discriminate].
  destruct (Z.of_nat (length (rows t)) <=? max_int64)%Z eqn:Hlen; [| discriminate].
  destruct (length (columns t) =? length wanted); [| discriminate].
  destruct (column_indices wanted (columns t)); [| discriminate].
  intros H. injection H as <-. rewrite length_map. apply Z.leb_le. exact Hlen.
Qed.

Lemma orders_of_length (d : gmap string table) (os : list Orders.row) :
  orders_of d = Returned os -> (Z.of_nat (length os) <= max_int64)%Z.
Proof.
  unfold orders_of. unfold fmap, outcome_fmap.
  destruct (scan "orders" _ d) as [rs |] eqn:Hs; [| discriminate].
  intros H. injection H as <-. rewrite length_map. apply (scan_length _ _ _ _ Hs).
Qed.

(** Adding up flags of 0 and 1 counts the flags of 1, while the number of
    rows is within the 64-bit range. *)
Lemma fold_flags {A} (P : A -> bool) (l : list A) (a : Z) :
  (0 <= a)%Z ->
  (a + Z.of_nat (length l) <= max_int64)%Z ->
  fold_left sum_step (map (fun x => NInt (if P x then 1 else 0)%Z) l) (IntSum a)
  = IntSum (a + Z.of_nat (length (List.filter P l))).
Proof.
  revert a. induction l as [| x l IH]; intros a Ha Hmax.
  - cbn. f_equal. lia.
  - cbn [map fold_left sum_step List.filter length] in *.
    assert (Hf : (0 <= (if P x then 1 else 0) <= 1)%Z) by (destruct (P x); lia).
    rewrite in_int64_abs by lia.
    rewrite IH by lia. f_equal. destruct (P x); cbn [length]; lia.
Qed.

Lemma installment_flags_sum (E : engine) (o : Orders.row) (os : list Orders.row) :
  (Z.of_nat (length (o :: os)) <= max_int64)%Z ->
  sql_sum E (map installment_flag (o :: os))
  = Returned (VInt (Z.of_nat (length (installment_orders (o :: os))))).
Proof.
  intros Hlen.
  assert (Hagg : forall l,
             aggregands E (map installment_flag l)
             = map (fun x => NInt (if holds (sql_eq (Orders.payment_type x)
                                                   (VText "Installment"))
                                   then 1 else 0)%Z) l).
  { induction l as [| x l IH]; [reflexivity |]. cbn [map aggregands].
    unfold installment_flag at 1.
    destruct (holds (sql_eq (Orders.payment_type x) (VText "Installment")));
      cbn [aggregand]; rewrite IH; reflexivity. }
  unfold sql_sum. rewrite Hagg. cbn [map fold_left sum_step length] in *.
  set (P := fun x : Orders.row =>
              holds (sql_eq (Orders.payment_type x) (VText "Installment"))).
  assert (Hf : (0 <= (if P o then 1 else 0) <= 1)%Z) by (destruct (P o); lia).
  fold (P o). rewrite in_int64_abs by (unfold max_int64; lia).
  rewrite (fold_flags P os) by lia.
  unfold installment_orders. cbn [List.filter]. fold (P o). fold P.
  f_equal. f_equal. destruct (P o); cbn [length]; lia.
Qed.

Local Open Scope Q_scope.

(** X11: on an orders table with at least one row the installments query
    returns one REAL, 100 times the number of orders whose payment type is
    the text Installment divided by the number of orders; it lies between 0
    and 100 and is never NULL. *)
Theorem installments_percentage_value (E : engine) (d : gmap string table)
  (o : Orders.row) (os : list Orders.row) :
  orders_of d = Returned (o :: os) ->
  exists q,
    installments_percentage E d
    = Returned {| names := ["percentage_installments"]; tuples := [[VReal q]] |} /\
    q == 100 * inject_Z (Z.of_nat (length (installment_orders (o :: os))))
         / inject_Z (Z.of_nat (length (o :: os))) /\
    0 <= q /\ q <= 100.
Proof.
  intros H. unfold installments_percentage. rewrite H.
  unfold mbind, outcome_bind, mret, outcome_ret. cbv beta iota.
  rewrite (installment_flags_sum E o os (orders_of_length d _ H)).
  set (k := Z.of_nat (length (installment_orders (o :: os)))).
  set (n := Z.of_nat (length (o :: os))).
  assert (Hk : (0 <= k <= n)%Z).
  { unfold k, n, installment_orders. split; [lia |].
    apply Nat2Z.inj_le. apply List.filter_length_le. }
  assert (Hn : (0 < n)%Z) by (unfold n; cbn [length]; lia).
  assert (HnQ : inject_Z 0 < inject_Z n) by (rewrite <- Zlt_Qlt; exact Hn).
  change (0 < inject_Z n) in HnQ.
  unfold sql_mul, arith, sql_div, count_star. cbn [operand number_Q]. fold n.
  destruct (Qeq_bool (inject_Z n) 0) eqn:Hz.
  { apply Qeq_bool_iff in Hz. rewrite Hz in HnQ. discriminate HnQ. }
  eexists. split; [reflexivity |]. split; [| split].
  - field. intros Hc. rewrite Hc in HnQ. discriminate HnQ.
  - apply Qle_shift_div_l; [exact HnQ |]. rewrite Qmult_0_l.
    change 100 with (inject_Z 100). rewrite <- inject_Z_mult.
    change 0 with (inject_Z 0). rewrite <- Zle_Qle. lia.
  - apply Qle_shift_div_r; [exact HnQ |].
    change 100 with (inject_Z 100). rewrite <- !inject_Z_mult.
    rewrite <- Zle_Qle. lia.
Qed.

Lemma installments_percentage_value_witness :
  orders_of one_year_database = Returned [order_a; order_b] /\
  exists q,
    installments_percentage plain_engine one_year_database
    = Returned {| names := ["percentage_installments"]; tuples := [[VReal q]] |} /\
    q == 50.
Proof.
  split; [reflexivity |].
  destruct (installments_percentage_value plain_engine one_year_database order_a [order_b])
    as (q & Hq & Hv & _); [reflexivity |].
  exists q. split; [exact Hq |]. rewrite Hv. reflexivity.
Defined.

(** ** ORDER BY *)

Lemma value_compare_antisym (a b : value) :
  value_compare b a = CompOpp (value_compare a b).
Proof.
  destruct a as [| x | p | s], b as [| y | q | t]; simpl; try reflexivity;
    try (rewrite <- Qcompare_antisym; reflexivity).
  apply String.compare_antisym.
Qed.

Lemma value_leb_total (a b : value) : value_leb a b = false -> value_leb b a = true.
Proof.
  unfold value_leb. rewrite (value_compare_antisym a b).
  destruct (value_compare a b); simpl; congruence.
Qed.

Section Sorting.
Context {A : Type} (le : A -> A -> bool).
Hypothesis le_total : forall a b, le a b = false -> le b a = true.

Lemma insert_sorted_sorted (a : A) (l : list A) :
  sorted_by le l -> sorted_by le (insert_sorted le a l).
Proof using le_total.
  induction l as [| b l IH]; intros Hs; [simpl; tauto |].
  cbn [insert_sorted]. destruct (le a b) eqn:Hab.
  - split; [exact Hab | exact Hs].
  - destruct Hs as [Hb Hl]. specialize (IH Hl). split; [| exact IH].
    destruct l as [| c l]; cbn [insert_sorted].
    + apply le_total. exact Hab.
    + destruct (le a c); [apply le_total; exact Hab | exact Hb].
Qed.

Lemma sort_by_sorted (l : list A) : sorted_by le (sort_by le l).
Proof using le_total.
  unfold sort_by. induction l as [| a l IH]; [exact I |].
  cbn [fold_right]. apply insert_sorted_sorted. exact IH.
Qed.
End Sorting.

Lemma sorted_by_map {A B} (le : B -> B -> bool) (f : A -> B) (l : list A) :
  sorted_by (fun a b => le (f a) (f b)) l -> sorted_by le (map f l).
Proof.
  induction l as [| a l IH]; [trivial |]. intros [H1 H2]. split; [| apply IH; exact H2].
  destruct l; [exact I | exact H1].
Qed.



Local Close Scope Q_scope.

(** ** The end of [main] *)

(** X12: [main] never returns normally: in every world it raises, at the
    latest with the syntax error of intermediate query 4, so that it runs
    exactly as the script cut off after [intermediate_queries]:
    [advanced_queries] and the closing of the connection are never
    reached. *)
Theorem main_never_reaches_the_advanced_queries (E : engine) (w : world) :
  (exists e w', main E w = (Raised e, w')) /\
  main E w = main_up_to_intermediate E w /\
  main plain_engine orphan_world
  = (Raised SyntaxError,
     printing orphan_loaded_world
       (stdout (snd (basic_queries plain_engine orphan_loaded_world))
        ++ [Line orders_per_month_label;
            Frame {| names := ["month"; "order_count"]; tuples := [] |};
            Line avg_products_label;
            Frame {| names := ["city"; "avg_products_per_order"]; tuples := [] |};
            Line percentage_revenue_label;
            Frame {| names := ["category"; "percentage_revenue"]; tuples := [] |};
            Line correlation_label])) /\
  length (stdout (snd (main plain_engine orphan_world))) = 17.
Proof.
  assert (Hcut : main E w = main_up_to_intermediate E w /\
                 exists e w', main_up_to_intermediate E w = (Raised e, w')).
  { unfold main, main_up_to_intermediate. unfold mbind, run_bind.
    destruct (create_tables w) as [[[] | e0] w0]; [| eauto].
    destruct (for_each files_and_tables _ w0) as [[[] | e1] w1]; [| eauto].
    destruct (basic_queries E w1) as [[[] | e2] w2]; [| eauto].
    destruct (intermediate_queries_raise E w2) as (e & w' & Hi & _).
    rewrite Hi. eauto. }
  destruct Hcut as (Hcut & e & w' & Hraise).
  split; [exists e, w'; rewrite Hcut; exact Hraise |].
  split; [exact Hcut |].
  split; vm_compute; reflexivity.
Qed.

(** ** Year-over-year growth in general *)

Lemma lag_from_length {A} (f : A -> value) (p : value) (l : list A) :
  length (lag_from f p l) = length l.
Proof.
  revert p. induction l as [| a l IH]; intros p; [reflexivity |].
  cbn [lag_from length]. rewrite IH. reflexivity.
Qed.

Lemma lag_from_fst {A} (f : A -> value) (p : value) (l : list A) :
  map fst (lag_from f p l) = l.
Proof.
  revert p. induction l as [| a l IH]; intros p; [reflexivity |].
  cbn [lag_from map fst]. rewrite IH. reflexivity.
Qed.

Lemma lag_from_next {A} (f : A -> value) (p : value) (l : list A) (i : nat)
  (x y : A * value) :
  nth_error (lag_from f p l) i = Some x ->
  nth_error (lag_from f p l) (S i) = Some y ->
  snd y = f (fst x).
Proof.
  revert p i. induction l as [| a l IH]; intros p i; [destruct i; discriminate |].
  cbn [lag_from]. destruct i as [| i].
  - cbn [nth_error]. intros Hx. injection Hx as <-. destruct l as [| b l]; [discriminate |].
    cbn [lag_from nth_error]. intros Hy. injection Hy as <-. reflexivity.
  - cbn [nth_error]. apply IH.
Qed.

Lemma lag_from_snd {A} (f : A -> value) (p : value) (l : list A) (x : A * value) :
  In x (lag_from f p l) -> snd x = p \/ exists a, In a l /\ snd x = f a.
Proof.
  revert p. induction l as [| a l IH]; intros p; [intros [] |].
  cbn [lag_from]. intros [<- | H]; [left; reflexivity |].
  right. destruct (IH _ H) as [Hp | (b & Hb & Hx)].
  - exists a. split; [left; reflexivity | exact Hp].
  - exists b. split; [right; exact Hb | exact Hx].
Qed.

(** A division by NULL or by a number that is zero is NULL. *)
Lemma sql_div_by_nothing (E : engine) (a b : value) :
  storage_of b <> SText ->
  b = VNull \/ (value_Q b == 0)%Q ->
  sql_div E a b = VNull.
Proof.
  intros Ht Hb. unfold sql_div.
  destruct b as [| z | q | s]; cbn [operand].
  - destruct (operand E a); reflexivity.
  - destruct Hb as [Hb | Hb]; [discriminate |]. cbn [value_Q] in Hb.
    destruct (operand E a); [| reflexivity]. cbn [number_Q].
    apply Qeq_bool_iff in Hb. rewrite Hb. reflexivity.
  - destruct Hb as [Hb | Hb]; [discriminate |]. cbn [value_Q] in Hb.
    destruct (operand E a); [| reflexivity]. cbn [number_Q].
    apply Qeq_bool_iff in Hb. rewrite Hb. reflexivity.
  - exfalso. apply Ht. reflexivity.
Qed.

Lemma group_by_length {A K} (eqb : K -> K -> bool) (key : A -> K) (l : list A) :
  length (group_by eqb key l) = length (distinct eqb (map key l)).
Proof. unfold group_by. apply length_map. Qed.

(** The growth query returns when [yearly_sales] does, and raises its
    error. *)
Lemma yearly_growth_rate_outcome (E : engine) (d : gmap string table)
  (os : list Orders.row) :
  orders_of d = Returned os ->
  yearly_growth_rate E d
  = match yearly_sales E os with
    | Returned years =>
        Returned {| names := ["year"; "total_sales"; "previous_year_sales"; "growth_rate"];
                    tuples := map (growth_row E)
                                  (lag snd (sort_by (ascending fst) years)) |}
    | Raised e => Raised e
    end.
Proof. intros H. unfold yearly_growth_rate. rewrite H. reflexivity. Qed.

Lemma yearly_growth_rate_returns (E : engine) (d : gmap string table)
  (os : list Orders.row) :
  orders_of d = Returned os ->
  (integer_weight E (map Orders.amount os) <= max_int64)%Z ->
  exists r, yearly_growth_rate E d = Returned r.
Proof.
  intros H Hw. rewrite (yearly_growth_rate_outcome E d os H). unfold yearly_sales.
  destruct (group_sums_return E value_eqb (year_of E) fst Orders.amount os Hw)
    as (rs & ->).
  eexists. reflexivity.
Qed.

(** X13: every result of the growth query has one row per year of the
    orders table, by rising year; the previous-year column of the first row
    is NULL and that of every later row is the total of the row just before
    it, whether or not that row is the year before.  The query has a result
    whenever the sizes of the integer amounts add up within the 64-bit
    range. *)
Theorem yearly_growth_rate_rows (E : engine) (d : gmap string table)
  (os : list Orders.row) :
  orders_of d = Returned os ->
  (forall r,
      yearly_growth_rate E d = Returned r ->
      length (tuples r) = length (distinct value_eqb (map (year_of E) os)) /\
      sorted_by (ascending (field 0)) (tuples r) /\
      (forall row, nth_error (tuples r) 0 = Some row -> field 2 row = VNull) /\
      (forall i row next,
          nth_error (tuples r) i = Some row ->
          nth_error (tuples r) (S i) = Some next ->
          field 2 next = field 1 row)) /\
  ((integer_weight E (map Orders.amount os) <= max_int64)%Z ->
   exists r, yearly_growth_rate E d = Returned r).
Proof.
  intros H. split; [| apply (yearly_growth_rate_returns E d os H)].
  intros r Hr. rewrite (yearly_growth_rate_outcome E d os H) in Hr.
  destruct (yearly_sales E os) as [years | e] eqn:Hys; [| discriminate Hr].
  injection Hr as <-. cbn [tuples].
  set (ys := sort_by (ascending fst) years).
  split; [| split; [| split]].
  - rewrite length_map. unfold lag. rewrite lag_from_length. unfold ys.
    rewrite sort_by_length. unfold yearly_sales in Hys.
    apply sum_per_group_returned in Hys. destruct Hys as [-> _].
    rewrite length_map. apply group_by_length.
  - apply sorted_by_map.
    assert (Hs : sorted_by (ascending fst) ys).
    { apply (sort_by_sorted (ascending fst)). intros a b. apply value_leb_total. }
    unfold lag. generalize VNull as p. revert Hs. generalize ys as l.
    induction l as [| a l IH]; intros Hs p; [exact I |].
    cbn [lag_from]. destruct Hs as [H1 H2]. split; [| apply IH; exact H2].
    destruct l as [| b l]; [exact I | exact H1].
  - intros row Hrow. unfold lag in Hrow. destruct ys as [| a l]; [discriminate |].
    cbn [lag_from map nth_error] in Hrow. injection Hrow as <-. reflexivity.
  - intros i row next Hrow Hnext.
    rewrite nth_error_map in Hrow, Hnext. unfold lag in *.
    destruct (nth_error (lag_from snd VNull ys) i) as [x |] eqn:Hx; [| discriminate].
    destruct (nth_error (lag_from snd VNull ys) (S i)) as [y |] eqn:Hy; [| discriminate].
    cbn [option_map] in Hrow, Hnext. injection Hrow as <-. injection Hnext as <-.
    unfold growth_row. cbn [field nth]. apply (lag_from_next snd VNull ys i x y Hx Hy).
Qed.

Lemma yearly_growth_rate_rows_witness :
  orders_of gap_years_database
  = Returned [order_on 1 1 "2017-01-05" 10; order_on 2 2 "2019-06-01" 0;
              order_on 3 1 "2021-03-01" 5] /\
  exists r,
    yearly_growth_rate plain_engine gap_years_database = Returned r /\
    map (field 0) (tuples r) = [VText "2017"; VText "2019"; VText "2021"] /\
    map (field 2) (tuples r) = [VNull; VReal 10; VReal 0] /\
    length (tuples r) = 3%nat /\
    sorted_by (ascending (field 0)) (tuples r).
Proof.
  split; [reflexivity |].
  destruct (yearly_growth_rate_rows plain_engine gap_years_database
              [order_on 1 1 "2017-01-05" 10; order_on 2 2 "2019-06-01" 0;
               order_on 3 1 "2021-03-01" 5]) as (Hrows & Hret); [reflexivity |].
  destruct Hret as (r & Hr); [apply Z.leb_le; reflexivity |].
  destruct (Hrows r Hr) as (_ & Hsorted & _).
  exists r. split; [exact Hr |].
  assert (Hr' := Hr). vm_compute in Hr'. injection Hr' as <-.
  repeat split; reflexivity.
Defined.

(** X14: in every row of a result of the growth query whose previous-year
    value is NULL or zero the growth rate is NULL: the division never
    raises.  The query has a result whenever the sizes of the integer amounts
    add up within the 64-bit range. *)
Theorem yearly_growth_rate_without_base (E : engine) (d : gmap string table)
  (os : list Orders.row) :
  orders_of d = Returned os ->
  (forall r,
      yearly_growth_rate E d = Returned r ->
      forall row,
        In row (tuples r) ->
        field 2 row = VNull \/ (value_Q (field 2 row) == 0)%Q ->
        field 3 row = VNull) /\
  ((integer_weight E (map Orders.amount os) <= max_int64)%Z ->
   exists r, yearly_growth_rate E d = Returned r).
Proof.
  intros H. split; [| apply (yearly_growth_rate_returns E d os H)].
  intros r Hr. rewrite (yearly_growth_rate_outcome E d os H) in Hr.
  destruct (yearly_sales E os) as [years | e] eqn:Hys; [| discriminate Hr].
  injection Hr as <-. cbn [tuples]. intros row Hrow Hzero. apply in_map_iff in Hrow.
  destruct Hrow as (x & <- & Hx). unfold growth_row in *. cbn [field nth] in *.
  apply sql_div_by_nothing; [| exact Hzero].
  apply lag_from_snd in Hx. destruct Hx as [-> | (a & Ha & ->)]; [discriminate |].
  apply sort_by_In in Ha. unfold yearly_sales in Hys.
  apply sum_per_group_returned in Hys. destruct Hys as [-> Hall].
  apply in_map_iff in Ha. destruct Ha as (g & <- & Hg). cbn [snd].
  apply (sql_sum_storage E _ _ (Hall g Hg)).
Qed.

Lemma yearly_growth_rate_without_base_witness :
  orders_of gap_years_database
  = Returned [order_on 1 1 "2017-01-05" 10; order_on 2 2 "2019-06-01" 0;
              order_on 3 1 "2021-03-01" 5] /\
  exists r,
    yearly_growth_rate plain_engine gap_years_database = Returned r /\
    map (field 2) (tuples r) = [VNull; VReal 10; VReal 0] /\
    map (field 3) (tuples r) = [VNull; VReal (-1000 # 10); VNull] /\
    (forall row,
        In row (tuples r) ->
        field 2 row = VNull \/ (value_Q (field 2 row) == 0)%Q ->
        field 3 row = VNull).
Proof.
  split; [reflexivity |].
  destruct (yearly_growth_rate_without_base plain_engine gap_years_database
              [order_on 1 1 "2017-01-05" 10; order_on 2 2 "2019-06-01" 0;
               order_on 3 1 "2021-03-01" 5]) as (Hrows & Hret); [reflexivity |].
  destruct Hret as (r & Hr); [apply Z.leb_le; reflexivity |].
  pose proof (Hrows r Hr) as Hnull.
  exists r. split; [exact Hr |].
  assert (Hr' := Hr). vm_compute in Hr'. injection Hr' as <-.
  split; [reflexivity |]. split; [reflexivity | exact Hnull].
Defined.

(** ** Sales per month *)




Local Open Scope Q_scope.



Local Close Scope Q_scope.






Local Open Scope Q_scope.


Local Close Scope Q_scope.



Local Open Scope Q_scope.


Local Close Scope Q_scope.


(** ** Percentages of whole amounts *)

Lemma aggregands_integer (E : engine) (vs : list value) :
  (forall v, In v vs -> is_integer v = true) ->
  forallb is_int (aggregands E vs) = true.
Proof.
  induction vs as [| v vs IH]; intros H; [reflexivity |].
  assert (Hv := H v (or_introl eq_refl)).
  assert (IH' := IH (fun v' Hv' => H v' (or_intror Hv'))).
  destruct v; try discriminate Hv. cbn [aggregands aggregand forallb is_int]. exact IH'.
Qed.

Lemma fold_sum_integer (ns : list number) (acc : summed) :
  integer_sum acc = true ->
  forallb is_int ns = true ->
  integer_sum (fold_left sum_step ns acc) = true.
Proof.
  revert acc. induction ns as [| n ns IH]; intros acc Ha Hns; [exact Ha |].
  cbn [fold_left forallb] in *. apply andb_true_iff in Hns. destruct Hns as [Hn Hns].
  apply IH; [| exact Hns].
  destruct acc as [| a | r |], n as [z | q]; try discriminate Ha; try discriminate Hn;
    cbn [sum_step]; try reflexivity.
  - destruct (in_int64 z); reflexivity.
  - destruct (in_int64 (a + z)); reflexivity.
Qed.

(** The SUM of an INTEGER column is an INTEGER, or NULL. *)
Lemma sql_sum_integer (E : engine) (vs : list value) (v : value) :
  (forall v, In v vs -> is_integer v = true) ->
  sql_sum E vs = Returned v ->
  v = VNull \/ exists z, v = VInt z.
Proof.
  intros H. apply (aggregands_integer E) in H.
  pose proof (fold_sum_integer (aggregands E vs) NoValue eq_refl H) as Hi.
  unfold sql_sum. destruct (fold_left sum_step (aggregands E vs) NoValue);
    try discriminate Hi; intros Hv; inversion Hv; eauto.
Qed.

(** X16: when every order amount is an INTEGER, the division of the
    percentage query is an integer division: every percentage of a result is
    NULL or 100 times the truncated quotient of the category total by the
    total revenue, so a category below the total revenue gets 0.  The query
    has a result whenever the sizes of the amounts, of all orders and of the
    joined rows, add up within the 64-bit range. *)
Theorem percentages_of_whole_amounts (E : engine) (d : gmap string table)
  (os : list Orders.row) (ops : list OrderProducts.row) (ps : list Products.row) :
  orders_of d = Returned os ->
  order_products_of d = Returned ops ->
  products_of d = Returned ps ->
  (forall o, In o os -> is_integer (Orders.amount o) = true) ->
  (forall r,
      percentage_revenue_per_category E d = Returned r ->
      forall row,
        In row (tuples r) ->
        field 1 row = VNull \/
        exists (categories : list (value * value)) (c t : Z),
          category_revenue E os ops ps = Returned categories /\
          In (field 0 row, VInt c) categories /\
          total_revenue E os = Returned (VInt t) /\
          field 1 row = sql_mul E (of_integer (Z.quot c t)) (VInt 100) /\
          ((0 <= c < t)%Z -> field 1 row = VInt 0)) /\
  ((integer_weight E (map Orders.amount os) <= max_int64)%Z ->
   (integer_weight E (joined_amounts os ops ps) <= max_int64)%Z ->
   exists r, percentage_revenue_per_category E d = Returned r).
Proof.
  intros Ho Hop Hp Hint. unfold percentage_revenue_per_category.
  rewrite Ho, Hop, Hp. outcome_unfold. split.
  - intros r Hr.
    destruct (category_revenue E os ops ps) as [cats | e] eqn:Hcats; [| discriminate Hr].
    destruct cats as [| c0 cats'] eqn:Hshape; [injection Hr as <-; intros row [] |].
    rewrite <- Hshape in *. clear Hshape.
    destruct (total_revenue E os) as [total | e] eqn:Htotal; [| discriminate Hr].
    injection Hr as <-. cbn [tuples]. intros row Hrow. apply in_map_iff in Hrow.
    destruct Hrow as ([k c] & <- & Hc). cbn [field nth fst snd].
    assert (Ht : total = VNull \/ exists z, total = VInt z).
    { apply (sql_sum_integer E (map Orders.amount os)); [| exact Htotal].
      intros v Hv. apply in_map_iff in Hv. destruct Hv as (o & <- & Hin).
      apply Hint. exact Hin. }
    assert (Hcat : c = VNull \/ exists z, c = VInt z).
    { pose proof Hcats as Hc'. unfold category_revenue, category_totals in Hc'.
      apply sum_per_group_returned in Hc'. destruct Hc' as [Heq Hall].
      pose proof Hc as Hc2. rewrite Heq in Hc2. apply in_map_iff in Hc2.
      destruct Hc2 as (g & Hg1 & Hg). injection Hg1 as _ <-.
      apply (sql_sum_integer E (map (fun j => Orders.amount (fst (fst j))) (snd g)));
        [| exact (Hall g Hg)].
      intros v Hv. apply in_map_iff in Hv. destruct Hv as (j & <- & Hj).
      unfold group_by in Hg. apply in_map_iff in Hg. destruct Hg as (k' & <- & _).
      cbn [snd] in Hj. apply filter_In in Hj. destruct Hj as [Hj _].
      exact (joined_amounts_In os ops ps (fun v => is_integer v = true) Hint j Hj). }
    unfold percentage_of.
    destruct Hcat as [-> | (zc & ->)]; [left; reflexivity |].
    destruct Ht as [-> | (zt & ->)]; [left; reflexivity |].
    unfold sql_div. cbn [operand number_Q].
    destruct (Qeq_bool (inject_Z zt) 0) eqn:Hz; [left; reflexivity |].
    right. exists cats, zc, zt. split; [reflexivity |]. split; [exact Hc |].
    split; [reflexivity |]. split; [reflexivity |].
    intros Hsmall. rewrite Z.quot_small by exact Hsmall. reflexivity.
  - intros Hw Hj. unfold category_revenue, category_totals.
    destruct (group_sums_return E value_eqb
                (fun j : Orders.row * OrderProducts.row * Products.row =>
                   Products.category (snd j))
                fst (fun j => Orders.amount (fst (fst j)))
                (category_join os ops ps) Hj) as (cats & ->).
    destruct cats as [| c0 cats']; [eexists; reflexivity |].
    destruct (sql_sum_returns E (map Orders.amount os) Hw) as (total & Ht).
    unfold total_revenue. rewrite Ht. eexists. reflexivity.
Qed.

Lemma percentages_of_whole_amounts_witness :
  orders_of whole_amounts_database
  = Returned [whole_order 1 1 "2017-01-05" 10; whole_order 2 2 "2017-06-01" 30] /\
  percentage_revenue_per_category plain_engine whole_amounts_database
  = Returned {| names := ["category"; "percentage_revenue"];
                tuples := [[VText "A"; VInt 0]; [VText "B"; VInt 0]] |} /\
  forall row,
    In row [[VText "A"; VInt 0]; [VText "B"; VInt 0]] ->
    field 1 row = VNull \/
    exists (categories : list (value * value)) (c t : Z),
      category_revenue plain_engine
        [whole_order 1 1 "2017-01-05" 10; whole_order 2 2 "2017-06-01" 30]
        [link 1 1; link 2 2] [product_a; product_b] = Returned categories /\
      In (field 0 row, VInt c) categories /\
      total_revenue plain_engine
        [whole_order 1 1 "2017-01-05" 10; whole_order 2 2 "2017-06-01" 30]
      = Returned (VInt t) /\
      field 1 row = sql_mul plain_engine (of_integer (Z.quot c t)) (VInt 100) /\
      ((0 <= c < t)%Z -> field 1 row = VInt 0).
Proof.
  split; [reflexivity |].
  assert (Hr : percentage_revenue_per_category plain_engine whole_amounts_database
               = Returned {| names := ["category"; "percentage_revenue"];
                             tuples := [[VText "A"; VInt 0]; [VText "B"; VInt 0]] |})
    by (vm_compute; reflexivity).
  split; [exact Hr |].
  refine (proj1 (percentages_of_whole_amounts plain_engine whole_amounts_database
                   [whole_order 1 1 "2017-01-05" 10; whole_order 2 2 "2017-06-01" 30]
                   [link 1 1; link 2 2] [product_a; product_b] _ _ _ _) _ Hr).
  - reflexivity.
  - reflexivity.
  - reflexivity.
  - intros o [<- | [<- | []]]; reflexivity.
Defined.

(** ** The top three, in general *)

Lemma sorted_by_firstn {A} (le : A -> A -> bool) (n : nat) (l : list A) :
  sorted_by le l -> sorted_by le (firstn n l).
Proof.
  revert n. induction l as [| a l IH]; intros n Hs; [destruct n; exact I |].
  destruct n as [| n]; [exact I |]. cbn [firstn]. destruct Hs as [H1 H2].
  split; [| apply IH; exact H2].
  destruct l as [| b l]; [destruct n; exact I |]. destruct n; [exact I | exact H1].
Qed.

Lemma sorted_by_combine {A B} (le : A -> A -> bool) (l : list A) (l' : list B) :
  sorted_by le l -> sorted_by (fun a b => le (fst a) (fst b)) (combine l l').
Proof.
  revert l'. induction l as [| a l IH]; intros l' Hs; [exact I |].
  destruct l' as [| x l']; [exact I |]. cbn [combine]. destruct Hs as [H1 H2].
  split; [| apply IH; exact H2].
  destruct l as [| b l]; [exact I |]. destruct l' as [| y l']; [exact I | exact H1].
Qed.

Lemma ranked_from_firstn {A} (l : list A) (s : nat) :
  List.filter (fun r : A * value => holds (sql_le (snd r) (VInt 3)))
    (combine l (map (fun i => VInt (Z.of_nat i)) (seq s (length l))))
  = firstn (4 - s) (combine l (map (fun i => VInt (Z.of_nat i)) (seq s (length l)))).
Proof.
  revert s. induction l as [| a l IH]; intros s; [destruct (4 - s); reflexivity |].
  cbn [length seq map combine List.filter snd].
  rewrite rank_le_3. destruct (Nat.leb_spec s 3).
  - replace (4 - s) with (S (4 - S s)) by lia. cbn [firstn]. rewrite IH. reflexivity.
  - rewrite IH. replace (4 - S s) with 0 by lia. replace (4 - s) with 0 by lia.
    reflexivity.
Qed.

Lemma flat_map_apart {K B} (eqb : K -> K -> bool) (G : K -> list B) (y : K) (ks : list K) :
  (forall a b, eqb a b = eqb b a) ->
  (forall a b c, eqb a b = true -> eqb b c = true -> eqb a c = true) ->
  apart eqb ks ->
  flat_map (fun k => if eqb k y then G k else []) ks
  = match find (fun k => eqb k y) ks with Some k => G k | None => [] end.
Proof.
  intros Hsym Htrans. induction ks as [| k ks IH]; [reflexivity |].
  intros [Hk Hks]. cbn [flat_map find]. destruct (eqb k y) eqn:Hky.
  - replace (flat_map (fun k0 => if eqb k0 y then G k0 else []) ks) with (@nil B).
    + apply app_nil_r.
    + symmetry. clear IH. induction ks as [| k' ks IH']; [reflexivity |].
      cbn [flat_map]. destruct (eqb k' y) eqn:Hk'y.
      * rewrite (Hsym k y) in Hky. pose proof (Htrans _ _ _ Hk'y Hky) as Hc.
        rewrite (Hk k' (or_introl eq_refl)) in Hc. discriminate Hc.
      * apply IH'; [intros x Hx; apply Hk; right; exact Hx | apply Hks].
  - rewrite IH by exact Hks. reflexivity.
Qed.

(** The rows of the year [y] that the top-3 query keeps: none, or the first
    three of the year's customers by falling total. *)
Lemma kept_spending_of_year (y : value) (ys : list (value * value * value)) :
  let kept :=
    List.filter (fun r : value * value * value * value => value_eqb (fst (fst (fst r))) y)
      (List.filter (fun r => holds (sql_le (snd r) (VInt 3))) (ranked_spending ys)) in
  kept = [] \/
  exists part,
    kept = firstn 3 (row_number (sort_by (descending snd) part)).
Proof.
  cbv zeta. unfold ranked_spending. rewrite !filter_flat_map.
  unfold group_by. rewrite flat_map_concat_map, map_map, <- flat_map_concat_map. cbn [snd].
  set (year3 := fun s : value * value * value => fst (fst s)).
  set (G := fun k : value =>
              firstn 3 (row_number (sort_by (descending snd)
                                      (List.filter (fun s => value_eqb (year3 s) k) ys)))).
  rewrite (flat_map_ext _ (fun k => if value_eqb k y then G k else [])).
  - rewrite (flat_map_apart value_eqb G y _ value_eqb_sym value_eqb_trans)
      by apply distinct_apart.
    destruct (find _ _); [right; eexists; reflexivity | left; reflexivity].
  - intros k.
    assert (Hmember : forall r,
               In r (List.filter (fun r => holds (sql_le (snd r) (VInt 3)))
                       (row_number (sort_by (descending snd)
                          (List.filter (fun s => value_eqb (year3 s) k) ys)))) ->
               value_eqb (year3 (fst r)) k = true).
    { intros [s rank] Hr. apply filter_In in Hr. destruct Hr as [Hr _].
      apply row_number_In, sort_by_In, filter_In in Hr. tauto. }
    destruct (value_eqb k y) eqn:Hky.
    + rewrite filter_all.
      * unfold G, row_number. rewrite ranked_from_firstn. reflexivity.
      * intros r Hr. apply Hmember in Hr. apply (value_eqb_trans _ _ _ Hr Hky).
    + apply filter_none. intros r Hr. apply Hmember in Hr.
      destruct (value_eqb (fst (fst (fst r))) y) eqn:Hry; [| reflexivity].
      rewrite value_eqb_sym in Hr. fold (year3 (fst r)) in Hry.
      rewrite (value_eqb_trans _ _ _ Hr Hry) in Hky. discriminate.
Qed.

(** X17: in every result of the top-3 query every year has min(3, number
    of customers with an order in that year) rows, so never more than three,
    and the rows of a year come by falling [total_spent].  The query has a
    result whenever the sizes of the integer amounts add up within the
    64-bit range. *)
Theorem top_customers_at_most_three (E : engine) (d : gmap string table)
  (os : list Orders.row) :
  orders_of d = Returned os ->
  (forall r,
      top_customers_per_year E d = Returned r ->
      forall y,
        length (rows_of_year y r) = Nat.min 3 (length (customers_in_year E y os)) /\
        length (rows_of_year y r) <= 3 /\
        sorted_by (descending (field 2)) (rows_of_year y r)) /\
  ((integer_weight E (map Orders.amount os) <= max_int64)%Z ->
   exists r, top_customers_per_year E d = Returned r).
Proof.
  intros Hd. rewrite (top_customers_outcome E d os Hd). split.
  - intros r Hr. destruct (yearly_spending E os) as [spending | e] eqn:Hs;
      [| discriminate Hr].
    injection Hr as <-. intros y.
    unfold rows_of_year. cbn [tuples]. rewrite filter_map_swap. cbn [field nth].
    assert (Hlen := ranked_spending_of_year y spending).
    rewrite (yearly_spending_of_year E y os spending Hs) in Hlen.
    split; [| split].
    + rewrite length_map. exact Hlen.
    + rewrite length_map, Hlen. lia.
    + apply sorted_by_map.
      destruct (kept_spending_of_year y spending) as [Hk | (part & Hk)]; cbv zeta in Hk;
        rewrite Hk; [exact I |].
      apply sorted_by_firstn. unfold row_number.
      apply (sorted_by_combine (descending snd)).
      apply (sort_by_sorted (descending snd)). intros a b. apply value_leb_total.
  - intros Hw. unfold yearly_spending.
    destruct (group_sums_return E keys_eqb
                (fun o : Orders.row => [year_of E o; Orders.customer_id o])
                (fun g => (field 0 (fst g), field 1 (fst g)))
                Orders.amount os Hw) as (rs & ->).
    eexists. reflexivity.
Qed.

Lemma top_customers_at_most_three_witness :
  orders_of four_customers_database
  = Returned [order_on 1 1 "2017-01-05" 10; order_on 2 2 "2017-02-05" 40;
              order_on 3 3 "2017-03-05" 30; order_on 4 4 "2017-04-05" 20] /\
  top_customers_per_year plain_engine four_customers_database
  = Returned {| names := ["year"; "customer_id"; "total_spent"];
                tuples := [[VText "2017"; VInt 2; VReal 40]; [VText "2017"; VInt 3; VReal 30];
                           [VText "2017"; VInt 4; VReal 20]] |} /\
  exists r,
    top_customers_per_year plain_engine four_customers_database = Returned r /\
    length (rows_of_year (VText "2017") r) <= 3.
Proof.
  split; [reflexivity |]. split; [vm_compute; reflexivity |].
  destruct (top_customers_at_most_three plain_engine four_customers_database
              [order_on 1 1 "2017-01-05" 10; order_on 2 2 "2017-02-05" 40;
               order_on 3 3 "2017-03-05" 30; order_on 4 4 "2017-04-05" 20])
    as (Hres & Hret); [reflexivity |].
  destruct Hret as (r & Hr); [apply Z.leb_le; reflexivity |].
  exists r. split; [exact Hr |]. apply (Hres r Hr (VText "2017")).
Defined.

(** ** The moving average *)

Lemma qsum_of_nat {A} (f : A -> nat) (l : list A) :
  (qsum (map (fun a => inject_Z (Z.of_nat (f a))) l)
   == inject_Z (Z.of_nat (nsum (map f l))))%Q.
Proof.
  induction l as [| a l IH]; [reflexivity |].
  cbn [map]. unfold qsum, nsum in *. cbn [fold_right]. rewrite IH.
  rewrite Nat2Z.inj_add, inject_Z_plus. reflexivity.
Qed.

(** The sizes of the groups add up to the number of rows grouped. *)
Lemma nsum_groups {A} (key : A -> value) (l : list A) :
  nsum (map (fun g => length (snd g)) (group_by value_eqb key l)) = length l.
Proof.
  apply Nat2Z.inj. apply inject_Z_injective.
  rewrite <- qsum_of_nat, <- qsum_ones.
  rewrite <- (qsum_groups value_eqb key (fun _ => 1%Q)
                value_eqb_refl value_eqb_sym value_eqb_trans l).
  apply qsum_ext. intros g _. rewrite qsum_ones. reflexivity.
Qed.

Lemma row_number_length {A} (l : list A) : length (row_number l) = length l.
Proof. unfold row_number. rewrite length_combine, length_map, length_seq. lia. Qed.

Lemma ranked_orders_length (os : list Orders.row) :
  length (ranked_orders os) = length os.
Proof.
  unfold ranked_orders. rewrite flat_map_length_nsum.
  rewrite <- (nsum_groups Orders.customer_id os).
  f_equal. apply map_ext. intros g. rewrite row_number_length, sort_by_length. reflexivity.
Qed.

Lemma ranked_orders_In (os : list Orders.row) (x : Orders.row * value) :
  In x (ranked_orders os) -> In (fst x) os.
Proof.
  unfold ranked_orders. rewrite in_flat_map. intros (g & Hg & Hx).
  destruct x as [o rank]. apply row_number_In, sort_by_In in Hx.
  unfold group_by in Hg. apply in_map_iff in Hg. destruct Hg as (k & <- & _).
  cbn [snd] in Hx. apply filter_In in Hx. tauto.
Qed.

(** X18: the moving-average query returns exactly one row per order, and
    the first three columns of every row are the customer, the date and the
    amount of an order of the table. *)
Theorem moving_avg_one_row_per_order (E : engine) (d : gmap string table)
  (os : list Orders.row) :
  orders_of d = Returned os ->
  exists r,
    moving_avg E d = Returned r /\
    length (tuples r) = length os /\
    forall row,
      In row (tuples r) ->
      exists o,
        In o os /\ field 0 row = Orders.customer_id o /\
        field 1 row = Orders.order_date o /\ field 2 row = Orders.amount o.
Proof.
  intros H. unfold moving_avg. rewrite H. eexists. split; [reflexivity |].
  cbn [tuples]. split.
  - rewrite flat_map_length_nsum.
    rewrite <- (ranked_orders_length os).
    rewrite <- (nsum_groups (fun r : Orders.row * value => Orders.customer_id (fst r))
                  (ranked_orders os)).
    f_equal. apply map_ext. intros g.
    rewrite length_map, length_combine, length_seq, sort_by_length. lia.
  - intros row Hrow. apply in_flat_map in Hrow. destruct Hrow as (g & Hg & Hrow).
    apply in_map_iff in Hrow. destruct Hrow as ([x i] & <- & Hx).
    apply in_combine_l, sort_by_In in Hx.
    unfold group_by in Hg. apply in_map_iff in Hg. destruct Hg as (k & <- & _).
    cbn [snd] in Hx. apply filter_In in Hx. destruct Hx as [Hx _].
    apply ranked_orders_In in Hx. exists (fst x). cbn [fst field nth]. tauto.
Qed.

Lemma moving_avg_one_row_per_order_witness :
  orders_of one_year_database = Returned [order_a; order_b] /\
  exists r,
    moving_avg plain_engine one_year_database = Returned r /\
    length (tuples r) = 2.
Proof.
  split; [reflexivity |].
  destruct (moving_avg_one_row_per_order plain_engine one_year_database [order_a; order_b])
    as (r & Hr & Hlen & _); [reflexivity |].
  exists r. split; [exact Hr | exact Hlen].
Defined.

(** ** The retention rate *)

Lemma filter_length_lt {A} (P : A -> bool) (l : list A) (a : A) :
  In a l -> P a = false -> length (List.filter P l) < length l.
Proof.
  induction l as [| b l IH]; [intros [] |]. intros [-> | Hin] Ha; cbn [List.filter].
  - rewrite Ha. pose proof (List.filter_length_le P l). simpl. lia.
  - specialize (IH Hin Ha). destruct (P b); simpl; lia.
Qed.

(** Keys that are apart and each equal to some key of a second list are at
    most as many as the keys of that list. *)
Lemma apart_length_le (k1 k2 : list value) :
  apart value_eqb k1 ->
  (forall x, In x k1 -> exists y, In y k2 /\ value_eqb x y = true) ->
  length k1 <= length k2.
Proof.
  revert k2. induction k1 as [| x k1 IH]; intros k2 Hap Hcov; [simpl; lia |].
  destruct Hap as [Hx Hap].
  destruct (Hcov x (or_introl eq_refl)) as (y & Hy & Hxy).
  set (P := fun z => negb (value_eqb z x)).
  assert (Hlt : length (List.filter P k2) < length k2).
  { apply (filter_length_lt P k2 y Hy). unfold P.
    rewrite value_eqb_sym, Hxy. reflexivity. }
  assert (Hle : length k1 <= length (List.filter P k2)).
  { apply IH; [exact Hap |]. intros x' Hx'.
    destruct (Hcov x' (or_intror Hx')) as (y' & Hy' & Hx'y').
    exists y'. split; [| exact Hx'y']. apply filter_In. split; [exact Hy' |].
    unfold P. destruct (value_eqb y' x) eqn:Hc; [| reflexivity].
    pose proof (value_eqb_trans _ _ _ Hx'y' Hc) as Hc'.
    rewrite (Hx x' Hx') in Hc'. discriminate Hc'. }
  simpl. lia.
Qed.

Lemma left_join_In {A B} (l : list A) (r : list B) (on : A -> B -> option bool)
  (a : A) (b : B) :
  In (a, Some b) (left_join l r on) -> In a l /\ In b r /\ holds (on a b) = true.
Proof.
  unfold left_join. rewrite in_flat_map. intros (a' & Ha & H).
  destruct (List.filter (fun b0 => holds (on a' b0)) r) as [| b0 bs] eqn:Hf.
  - destruct H as [H | []]. discriminate H.
  - rewrite <- Hf in H. apply in_map_iff in H. destruct H as (b' & Heq & Hb).
    injection Heq as -> ->. apply filter_In in Hb. tauto.
Qed.

Lemma left_join_fst {A B} (l : list A) (r : list B) (on : A -> B -> option bool)
  (x : A * option B) :
  In x (left_join l r on) -> In (fst x) l.
Proof.
  unfold left_join. rewrite in_flat_map. intros (a & Ha & H).
  destruct (List.filter (fun b0 => holds (on a b0)) r) as [| b0 bs].
  - destruct H as [<- | []]. exact Ha.
  - apply in_map_iff in H. destruct H as (b' & <- & _). exact Ha.
Qed.

Lemma left_join_keeps {A B} (l : list A) (r : list B) (on : A -> B -> option bool)
  (a : A) :
  In a l -> exists x, In x (left_join l r on) /\ fst x = a.
Proof.
  intros Ha. unfold left_join.
  destruct (List.filter (fun b0 => holds (on a b0)) r) as [| b0 bs] eqn:Hf.
  - exists (a, None). split; [| reflexivity]. apply in_flat_map. exists a.
    rewrite Hf. split; [exact Ha | left; reflexivity].
  - exists (a, Some b0). split; [| reflexivity]. apply in_flat_map. exists a.
    rewrite Hf. split; [exact Ha | left; reflexivity].
Qed.

Lemma holds_sql_eq (a b : value) :
  holds (sql_eq a b) = true ->
  is_null a = false /\ is_null b = false /\ value_eqb a b = true.
Proof.
  unfold sql_eq, sql_cmp, holds, value_eqb.
  destruct a, b; try discriminate;
    (intros H; repeat split; try reflexivity;
     match goal with
     | H : match ?c with _ => _ end = true |- _ => destruct c; try discriminate; reflexivity
     end).
Qed.

Lemma non_null_In (v : value) (vs : list value) :
  In v (non_null vs) <-> In v vs /\ is_null v = false.
Proof.
  unfold non_null. rewrite filter_In. split; intros [H1 H2]; split; try exact H1.
  - apply negb_true_iff. exact H2.
  - apply negb_true_iff. exact H2.
Qed.

(** In the join of the retention query the customers with a later purchase
    are at most as many as the customers. *)
Lemma retained_le (E : engine) (os : list Orders.row) :
  let j := left_join (first_purchase os) (subsequent_purchases E os)
                     (fun f s => sql_eq (fst f) s) in
  length (distinct value_eqb
            (non_null (map (fun r : value * value * option value =>
                              match snd r with Some c => c | None => VNull end) j)))
  <= length (distinct value_eqb (non_null (map (fun r => fst (fst r)) j))).
Proof.
  cbv zeta.
  set (j := left_join (first_purchase os) (subsequent_purchases E os)
                      (fun f s => sql_eq (fst f) s)).
  apply apart_length_le; [apply distinct_apart |].
  intros x Hx. apply distinct_In, non_null_In in Hx. destruct Hx as [Hx Hnn].
  apply in_map_iff in Hx. destruct Hx as ([f [c |]] & Hc & Hin); cbn [snd] in Hc; subst x.
  - pose proof (left_join_In _ _ _ f c Hin) as (_ & _ & Hon).
    apply holds_sql_eq in Hon. destruct Hon as (Hf & _ & Hfc).
    destruct (distinct_covers value_eqb value_eqb_refl value_eqb_sym value_eqb_trans
                (non_null (map (fun r : value * value * option value => fst (fst r)) j))
                (fst f)) as (y & Hy & Hfy).
    + apply non_null_In. split; [| exact Hf].
      apply in_map_iff. exists (f, Some c). split; [reflexivity | exact Hin].
    + exists y. split; [exact Hy |]. rewrite value_eqb_sym in Hfc.
      apply (value_eqb_trans _ _ _ Hfc Hfy).
  - discriminate Hnn.
Qed.

Local Open Scope Q_scope.

(** X19: the retention-rate query returns one value, NULL when no customer
    has an order and otherwise a REAL between 0 and 100: the customers
    counted as retained are among the customers counted. *)
Theorem retention_rate_is_a_percentage (E : engine) (d : gmap string table)
  (os : list Orders.row) :
  orders_of d = Returned os ->
  exists v,
    retention_rate E d = Returned {| names := ["retention_rate"]; tuples := [[v]] |} /\
    percentage_or_null v.
Proof.
  intros H. unfold retention_rate. rewrite H.
  unfold mbind, outcome_bind, mret, outcome_ret. cbv beta iota zeta.
  eexists. split; [reflexivity |].
  pose proof (retained_le E os) as Hle. cbv zeta in Hle.
  unfold sql_count_distinct, count_star.
  set (j := left_join (first_purchase os) (subsequent_purchases E os)
                      (fun f s => sql_eq (fst f) s)) in *.
  set (a := length (distinct value_eqb
                      (non_null (map (fun r : value * value * option value =>
                                        match snd r with Some c => c | None => VNull end)
                                     j)))) in *.
  set (b := length (distinct value_eqb
                      (non_null (map (fun r : value * value * option value =>
                                        fst (fst r)) j)))) in *.
  unfold sql_mul, arith, sql_div. cbn [operand number_Q].
  destruct (Qeq_bool (inject_Z (Z.of_nat b)) 0) eqn:Hz; [left; reflexivity |].
  right. eexists. split; [reflexivity |].
  assert (Hb : 0 < inject_Z (Z.of_nat b)).
  { assert (Hne : b <> 0%nat).
    { intros ->. discriminate Hz. }
    change 0 with (inject_Z 0). rewrite <- Zlt_Qlt. lia. }
  split.
  - apply Qle_shift_div_l; [exact Hb |]. rewrite Qmult_0_l.
    change 100 with (inject_Z 100). rewrite <- inject_Z_mult.
    change 0 with (inject_Z 0). rewrite <- Zle_Qle. lia.
  - apply Qle_shift_div_r; [exact Hb |].
    change 100 with (inject_Z 100). rewrite <- !inject_Z_mult.
    rewrite <- Zle_Qle. lia.
Qed.

Lemma retention_rate_is_a_percentage_witness :
  orders_of returning_customer_database
  = Returned [order_on 1 1 "2017-01-05" 10; order_on 2 1 "2017-02-05" 40;
              order_on 3 2 "2017-03-05" 30] /\
  exists v,
    retention_rate wide_window_engine returning_customer_database
    = Returned {| names := ["retention_rate"]; tuples := [[v]] |} /\
    percentage_or_null v /\ value_Q v == 50.
Proof.
  split; [reflexivity |].
  destruct (retention_rate_is_a_percentage wide_window_engine returning_customer_database
              [order_on 1 1 "2017-01-05" 10; order_on 2 1 "2017-02-05" 40;
               order_on 3 2 "2017-03-05" 30]) as (v & Hv & Hp); [reflexivity |].
  exists v. split; [exact Hv |]. split; [exact Hp |].
  assert (Hv' := Hv). vm_compute in Hv'. injection Hv' as <-. reflexivity.
Defined.

Local Close Scope Q_scope.


(** ** Sales per category *)

(** X20: every result of the sales-per-category query has one row per
    category that a joined row has, no category twice: every row is the
    category of a joined row, and every joined row finds its category (NULL
    being a category of its own); a category without joined row has no row.
    The query has a result whenever the sizes of the integer amounts of the
    joined rows add up within the 64-bit range. *)
Theorem sales_per_category_rows (E : engine) (d : gmap string table)
  (os : list Orders.row) (ops : list OrderProducts.row) (ps : list Products.row) :
  orders_of d = Returned os ->
  order_products_of d = Returned ops ->
  products_of d = Returned ps ->
  (forall r,
      sales_per_category E d = Returned r ->
      apart value_eqb (first_column r) /\
      (forall v, In v (first_column r) ->
         exists j, In j (category_join os ops ps) /\ Products.category (snd j) = v) /\
      (forall j, In j (category_join os ops ps) ->
         exists v, In v (first_column r) /\
                   value_eqb (Products.category (snd j)) v = true)) /\
  ((integer_weight E (joined_amounts os ops ps) <= max_int64)%Z ->
   exists r, sales_per_category E d = Returned r).
Proof.
  intros Ho Hop Hp. unfold sales_per_category. rewrite Ho, Hop, Hp. outcome_unfold.
  split.
  - intros r Hr. destruct (category_totals E os ops ps) as [totals | e] eqn:Ht;
      [| discriminate Hr].
    injection Hr as <-. unfold category_totals in Ht.
    apply sum_per_group_returned in Ht. destruct Ht as [-> _].
    unfold first_column, group_by. cbn [tuples].
    rewrite !map_map. cbn [field nth fst]. rewrite map_id.
    split; [apply distinct_apart |]. split.
    + intros v Hv. apply distinct_In, in_map_iff in Hv. destruct Hv as (j & Hj & Hin).
      exists j. tauto.
    + intros j Hj.
      apply (distinct_covers value_eqb value_eqb_refl value_eqb_sym value_eqb_trans).
      apply (in_map (fun j : Orders.row * OrderProducts.row * Products.row =>
                       Products.category (snd j))). exact Hj.
  - intros Hw. unfold category_totals.
    destruct (group_sums_return E value_eqb
                (fun j : Orders.row * OrderProducts.row * Products.row =>
                   Products.category (snd j))
                fst (fun j => Orders.amount (fst (fst j)))
                (category_join os ops ps) Hw) as (rs & ->).
    eexists. reflexivity.
Qed.

Lemma sales_per_category_rows_witness :
  orders_of single_product_database = Returned [order_a; order_b] /\
  sales_per_category plain_engine single_product_database
  = Returned {| names := ["category"; "total_sales"];
                tuples := [[VText "A"; VReal 10]; [VText "B"; VReal 20]] |} /\
  exists r,
    sales_per_category plain_engine single_product_database = Returned r /\
    apart value_eqb (first_column r).
Proof.
  split; [reflexivity |]. split; [vm_compute; reflexivity |].
  destruct (sales_per_category_rows plain_engine single_product_database
              [order_a; order_b] [link 1 1; link 2 2] [product_a; product_b])
    as (Hres & Hret); [reflexivity | reflexivity | reflexivity |].
  destruct Hret as (r & Hr); [apply Z.leb_le; reflexivity |].
  exists r. split; [exact Hr | apply (Hres r Hr)].
Defined.

(** ** A query that raises *)

(** X21: on a database without customers table [basic_queries] prints its
    first label, raises the error of the first query and prints nothing
    more: none of the four queries after it is run. *)
Theorem basic_queries_without_customers (E : engine) (w : world) :
  database w !! "customers" = None ->
  basic_queries E w
  = (Raised (NoSuchTable "customers"),
     {| files := files w; database := database w;
        stdout := stdout w ++ [Line "1. List all unique cities where customers are located:"] |}).
Proof.
  intros H. unfold basic_queries, report, read_sql, print, unique_cities, customers_of, scan.
  unfold mbind at 1, run_bind. unfold mbind at 1, run_bind. cbn [fst snd database].
  unfold mbind at 1, run_bind. cbn [database]. rewrite H. reflexivity.
Qed.

Lemma basic_queries_without_customers_witness :
  database fresh_world_with_orders !! "customers" = None /\
  fst (basic_queries plain_engine fresh_world_with_orders)
  = Raised (NoSuchTable "customers") /\
  length (stdout (snd (basic_queries plain_engine fresh_world_with_orders))) = 1.
Proof.
  split; [reflexivity |].
  rewrite (basic_queries_without_customers plain_engine fresh_world_with_orders);
    [split; reflexivity | reflexivity].
Defined.

(** ** The load loop of the MySQL script *)






(** ** An integer that does not fit *)


